(** * Session store and role-gated dashboard of the hotel-sites front end

    A shallow embedding of [src/contexts/AuthContext.tsx],
    [src/pages/Login.tsx] and [src/pages/Dashboard.tsx].

    - JavaScript strings are sequences of UTF-16 code units ([list N]).
    - The run-time value of the React state [user] is a JavaScript value
      ([jsval]): TypeScript types are erased, and the mount effect installs
      whatever [JSON.parse] returns.
    - [localStorage] is a finite map from keys to strings; whether it
      takes a write is for the browser to say ([quota]).
    - [setTimeout] and the promise returned by [login] live in an explicit
      timer queue and promise table, driven by an event loop. *)

From Stdlib Require Import NArith ZArith Lia List Ascii String.
From stdpp Require Import base option list gmap sorting relations.
Import ListNotations.

Local Open Scope N_scope.
#[local] Set Warnings "-register-all".

(** ** JavaScript strings *)

Module JSString.

Abbreviation jsstring := (list N).

(** Decoding of the UTF-8 bytes of a source literal into UTF-16 code
    units, the form in which the TypeScript compiler hands the literal
    to the engine. *)
Fixpoint utf8_units (bs : list N) : list N :=
  match bs with
  | [] => []
  | b :: r =>
    if b <? 0x80 then b :: utf8_units r
    else if b <? 0xE0 then
      match r with
      | b2 :: r2 =>
        N.lor (N.shiftl (N.land b 0x1F) 6) (N.land b2 0x3F) :: utf8_units r2
      | [] => []
      end
    else if b <? 0xF0 then
      match r with
      | b2 :: b3 :: r3 =>
        N.lor (N.shiftl (N.land b 0x0F) 12)
              (N.lor (N.shiftl (N.land b2 0x3F) 6) (N.land b3 0x3F))
          :: utf8_units r3
      | _ => []
      end
    else
      match r with
      | b2 :: b3 :: b4 :: r4 =>
        let cp := N.lor (N.shiftl (N.land b 0x07) 18)
                 (N.lor (N.shiftl (N.land b2 0x3F) 12)
                 (N.lor (N.shiftl (N.land b3 0x3F) 6) (N.land b4 0x3F))) in
        let v := cp - 0x10000 in
        (0xD800 + N.shiftr v 10) :: (0xDC00 + N.land v 0x3FF) :: utf8_units r4
      | _ => []
      end
  end.

Definition str (s : string) : jsstring :=
  utf8_units (map N_of_ascii (list_ascii_of_string s)).

(** [a === b] on two strings. *)
Fixpoint eqb (a b : jsstring) : bool :=
  match a, b with
  | [], [] => true
  | x :: a', y :: b' => (x =? y) && eqb a' b'
  | _, _ => false
  end.

(** [s.split(sep)[0]] for a one-unit separator: the units before its
    first occurrence, the whole string when it does not occur. *)
Fixpoint split (sep : N) (s : jsstring) : list jsstring :=
  match s with
  | [] => [[]]
  | c :: r =>
    if c =? sep then [] :: split sep r
    else match split sep r with
         | piece :: pieces => (c :: piece) :: pieces
         | [] => [[c]]
         end
  end.

End JSString.
Import JSString.

(** ** JavaScript values *)

(** A numeric literal of the JSON grammar (sign, integer part, fraction,
    exponent), digits kept as their values. *)
Record numlit := NumLit {
  nl_neg : bool;
  nl_int : list N;
  nl_frac : list N;
  nl_exp : option (bool * list N)   (* exponent sign is negative, digits *)
}.

Inductive jsval :=
| VUndefined
| VNull
| VBool (b : bool)
| VNumber (n : numlit)
| VString (s : jsstring)
| VArray (items : list jsval)
| VObject (props : list (jsstring * jsval)).

(** [ToBoolean] of a number: false exactly when the literal denotes a
    double zero, that is when its digits are all zero or its magnitude
    rounds (to nearest, ties to even) below the least subnormal
    [2^-1074]: [m * 10^e <= 2^-1075]. *)
Definition digits_value (ds : list N) : Z :=
  fold_left (fun acc d => (10 * acc + Z.of_N d)%Z) ds 0%Z.

Definition numlit_is_zero (n : numlit) : bool :=
  let m := digits_value (nl_int n ++ nl_frac n) in
  let e := match nl_exp n with
           | None => 0%Z
           | Some (true, ds) => (- digits_value ds)%Z
           | Some (false, ds) => digits_value ds
           end in
  let e10 := (e - Z.of_nat (length (nl_frac n)))%Z in
  (m =? 0)%Z || ((e10 <? 0)%Z && (m * 2 ^ 1075 <=? 10 ^ (- e10))%Z).

(** [!!v] *)
Definition ToBoolean (v : jsval) : bool :=
  match v with
  | VUndefined | VNull => false
  | VBool b => b
  | VNumber n => negb (numlit_is_zero n)
  | VString s => match s with [] => false | _ => true end
  | VArray _ | VObject _ => true
  end.

(** Own-property lookup and definition on the property list of an
    object, kept in insertion order. *)
Fixpoint obj_get (k : jsstring) (props : list (jsstring * jsval)) : option jsval :=
  match props with
  | [] => None
  | (k', v) :: rest => if JSString.eqb k k' then Some v else obj_get k rest
  end.

Fixpoint obj_set (k : jsstring) (v : jsval) (props : list (jsstring * jsval))
  : list (jsstring * jsval) :=
  match props with
  | [] => [(k, v)]
  | (k', v') :: rest =>
    if JSString.eqb k k' then (k', v) :: rest else (k', v') :: obj_set k v rest
  end.

(** ** JSON, after ECMA-262 (JSON.parse, JSON.stringify) *)

Module JSON.

Definition is_ws (c : N) : bool :=
  (c =? 0x20) || (c =? 0x09) || (c =? 0x0A) || (c =? 0x0D).

Fixpoint skip_ws (s : jsstring) : jsstring :=
  match s with
  | c :: r => if is_ws c then skip_ws r else s
  | [] => []
  end.

Definition is_digit (c : N) : bool := (0x30 <=? c) && (c <=? 0x39).

Definition hexval (c : N) : option N :=
  if is_digit c then Some (c - 0x30)
  else if (0x61 <=? c) && (c <=? 0x66) then Some (c - 0x61 + 10)
  else if (0x41 <=? c) && (c <=? 0x46) then Some (c - 0x41 + 10)
  else None.

Definition hexdigit (d : N) : N :=
  if d <? 10 then 0x30 + d else 0x61 + (d - 10).

Definition is_high_surrogate (c : N) : bool := (0xD800 <=? c) && (c <=? 0xDBFF).
Definition is_low_surrogate (c : N) : bool := (0xDC00 <=? c) && (c <=? 0xDFFF).

(** [UnicodeEscape]: a backslash, [u] and four lowercase hex digits. *)
Definition UnicodeEscape (c : N) : jsstring :=
  [0x5C; 0x75; hexdigit (c / 4096 mod 16); hexdigit (c / 256 mod 16);
   hexdigit (c / 16 mod 16); hexdigit (c mod 16)].

(** The body of [QuoteJSONString]: short escapes for the seven named
    units, [UnicodeEscape] for the other control units and for unpaired
    surrogates, every other unit as it is. *)
Fixpoint quote_units (s : jsstring) : jsstring :=
  match s with
  | [] => []
  | c :: r =>
    if c =? 0x08 then 0x5C :: 0x62 :: quote_units r
    else if c =? 0x09 then 0x5C :: 0x74 :: quote_units r
    else if c =? 0x0A then 0x5C :: 0x6E :: quote_units r
    else if c =? 0x0C then 0x5C :: 0x66 :: quote_units r
    else if c =? 0x0D then 0x5C :: 0x72 :: quote_units r
    else if c =? 0x22 then 0x5C :: 0x22 :: quote_units r
    else if c =? 0x5C then 0x5C :: 0x5C :: quote_units r
    else if c <? 0x20 then UnicodeEscape c ++ quote_units r
    else if is_high_surrogate c then
      match r with
      | d :: r' =>
        if is_low_surrogate d then c :: d :: quote_units r'
        else UnicodeEscape c ++ quote_units r
      | [] => UnicodeEscape c
      end
    else if is_low_surrogate c then UnicodeEscape c ++ quote_units r
    else c :: quote_units r
  end.

Definition QuoteJSONString (s : jsstring) : jsstring :=
  0x22 :: quote_units s ++ [0x22].

(** [SerializeJSONObject] without gap, for an object whose own properties
    all hold strings, in insertion order. *)
Fixpoint join_comma (parts : list jsstring) : jsstring :=
  match parts with
  | [] => []
  | [p] => p
  | p :: rest => p ++ 0x2C :: join_comma rest
  end.

Definition member (kv : jsstring * jsstring) : jsstring :=
  QuoteJSONString (fst kv) ++ 0x3A :: QuoteJSONString (snd kv).

Definition SerializeJSONObject (props : list (jsstring * jsstring)) : jsstring :=
  0x7B :: join_comma (map member props) ++ [0x7D].

(** The unit a one-letter escape stands for. *)
Definition short_escape (e : N) : option N :=
  if e =? 0x22 then Some 0x22
  else if e =? 0x5C then Some 0x5C
  else if e =? 0x2F then Some 0x2F
  else if e =? 0x62 then Some 0x08
  else if e =? 0x66 then Some 0x0C
  else if e =? 0x6E then Some 0x0A
  else if e =? 0x72 then Some 0x0D
  else if e =? 0x74 then Some 0x09
  else None.

Definition hex4 (h3 h2 h1 h0 : N) : option N :=
  match hexval h3, hexval h2, hexval h1, hexval h0 with
  | Some d3, Some d2, Some d1, Some d0 =>
    Some (d3 * 4096 + d2 * 256 + d1 * 16 + d0)
  | _, _, _, _ => None
  end.

Definition prepend (u : N) (o : option (jsstring * jsstring))
  : option (jsstring * jsstring) :=
  match o with
  | Some (t, rest) => Some (u :: t, rest)
  | None => None
  end.

(** A JSON string, after its opening quote: the units up to the closing
    quote, escapes decoded, and the rest of the text. *)
Fixpoint parse_string (s : jsstring) : option (jsstring * jsstring) :=
  match s with
  | [] => None
  | c :: r =>
    if c =? 0x22 then Some ([], r)
    else if c =? 0x5C then
      match r with
      | [] => None
      | e :: r1 =>
        match short_escape e with
        | Some u => prepend u (parse_string r1)
        | None =>
          if e =? 0x75 then
            match r1 with
            | h3 :: h2 :: h1 :: h0 :: r2 =>
              match hex4 h3 h2 h1 h0 with
              | Some u => prepend u (parse_string r2)
              | None => None
              end
            | _ => None
            end
          else None
        end
      end
    else if c <? 0x20 then None
    else prepend c (parse_string r)
  end.

(** Numbers: an optional minus sign, an integer part without leading
    zero, an optional fraction and an optional exponent. *)
Fixpoint take_digits (s : jsstring) : list N * jsstring :=
  match s with
  | c :: r =>
    if is_digit c then
      let '(ds, rest) := take_digits r in (c - 0x30 :: ds, rest)
    else ([], s)
  | [] => ([], [])
  end.

Definition parse_int (s : jsstring) : option (list N * jsstring) :=
  match s with
  | c :: r =>
    if c =? 0x30 then Some ([0], r)
    else if is_digit c then Some (take_digits s)
    else None
  | [] => None
  end.

Definition parse_frac (s : jsstring) : option (list N * jsstring) :=
  match s with
  | c :: r =>
    if c =? 0x2E then
      match take_digits r with
      | ([], _) => None
      | (ds, rest) => Some (ds, rest)
      end
    else Some ([], s)
  | [] => Some ([], [])
  end.

Definition parse_exp (s : jsstring) : option (option (bool * list N) * jsstring) :=
  match s with
  | c :: r =>
    if (c =? 0x65) || (c =? 0x45) then
      let '(neg, r1) :=
        match r with
        | sg :: r' =>
          if sg =? 0x2D then (true, r')
          else if sg =? 0x2B then (false, r')
          else (false, r)
        | [] => (false, r)
        end in
      match take_digits r1 with
      | ([], _) => None
      | (ds, rest) => Some (Some (neg, ds), rest)
      end
    else Some (None, s)
  | [] => Some (None, [])
  end.

Definition parse_number (s : jsstring) : option (numlit * jsstring) :=
  let '(neg, s1) :=
    match s with
    | c :: r => if c =? 0x2D then (true, r) else (false, s)
    | [] => (false, s)
    end in
  match parse_int s1 with
  | Some (i, s2) =>
    match parse_frac s2 with
    | Some (f, s3) =>
      match parse_exp s3 with
      | Some (e, s4) => Some (NumLit neg i f e, s4)
      | None => None
      end
    | None => None
    end
  | None => None
  end.

Fixpoint strip_prefix (p s : jsstring) : option jsstring :=
  match p, s with
  | [], _ => Some s
  | x :: p', y :: s' => if x =? y then strip_prefix p' s' else None
  | _ :: _, [] => None
  end.

(** A JSON value with the white space before it, and the rest of the
    text. [fuel] bounds the number of nested calls; [JSON_parse] gives
    it more than the text can use (two calls for each unit at most). *)
Fixpoint parse_value (fuel : nat) (s : jsstring) {struct fuel}
  : option (jsval * jsstring) :=
  match fuel with
  | O => None
  | S f =>
    match skip_ws s with
    | [] => None
    | c :: r =>
      if c =? 0x22 then
        match parse_string r with
        | Some (t, rest) => Some (VString t, rest)
        | None => None
        end
      else if c =? 0x7B then
        match skip_ws r with
        | c1 :: r1 =>
          if c1 =? 0x7D then Some (VObject [], r1)
          else parse_members f (c1 :: r1) []
        | [] => None
        end
      else if c =? 0x5B then
        match skip_ws r with
        | c1 :: r1 =>
          if c1 =? 0x5D then Some (VArray [], r1)
          else parse_elements f (c1 :: r1) []
        | [] => None
        end
      else if c =? 0x74 then
        match strip_prefix [0x72; 0x75; 0x65] r with
        | Some rest => Some (VBool true, rest)
        | None => None
        end
      else if c =? 0x66 then
        match strip_prefix [0x61; 0x6C; 0x73; 0x65] r with
        | Some rest => Some (VBool false, rest)
        | None => None
        end
      else if c =? 0x6E then
        match strip_prefix [0x75; 0x6C; 0x6C] r with
        | Some rest => Some (VNull, rest)
        | None => None
        end
      else
        match parse_number (c :: r) with
        | Some (n, rest) => Some (VNumber n, rest)
        | None => None
        end
    end
  end

with parse_members (fuel : nat) (s : jsstring) (acc : list (jsstring * jsval))
  {struct fuel} : option (jsval * jsstring) :=
  match fuel with
  | O => None
  | S f =>
    match skip_ws s with
    | c :: r =>
      if c =? 0x22 then
        match parse_string r with
        | Some (k, r1) =>
          match skip_ws r1 with
          | c1 :: r2 =>
            if c1 =? 0x3A then
              match parse_value f r2 with
              | Some (v, r3) =>
                match skip_ws r3 with
                | c3 :: r4 =>
                  if c3 =? 0x2C then parse_members f r4 (obj_set k v acc)
                  else if c3 =? 0x7D then Some (VObject (obj_set k v acc), r4)
                  else None
                | [] => None
                end
              | None => None
              end
            else None
          | [] => None
          end
        | None => None
        end
      else None
    | [] => None
    end
  end

with parse_elements (fuel : nat) (s : jsstring) (acc : list jsval)
  {struct fuel} : option (jsval * jsstring) :=
  match fuel with
  | O => None
  | S f =>
    match parse_value f s with
    | Some (v, r1) =>
      match skip_ws r1 with
      | c :: r2 =>
        if c =? 0x2C then parse_elements f r2 (acc ++ [v])
        else if c =? 0x5D then Some (VArray (acc ++ [v]), r2)
        else None
      | [] => None
      end
    | None => None
    end
  end.

(** The object [parse_members] builds from members that hold strings. *)
Definition define_all (props : list (jsstring * jsstring))
  (acc : list (jsstring * jsval)) : list (jsstring * jsval) :=
  fold_left (fun a kv => obj_set (fst kv) (VString (snd kv)) a) props acc.

(** [JSON.parse(text)]: [None] stands for the [SyntaxError] it throws. *)
Definition JSON_parse (text : jsstring) : option jsval :=
  match parse_value (S (2 * length text)) text with
  | Some (v, rest) =>
    match skip_ws rest with
    | [] => Some v
    | _ :: _ => None
    end
  | None => None
  end.

End JSON.

(** ** The session store: [src/contexts/AuthContext.tsx] *)

Module AuthContext.

Inductive Role := investor | admin.

Definition Role_string (r : Role) : jsstring :=
  match r with
  | investor => str "investor"
  | admin => str "admin"
  end.

(** [interface User] *)
Record User := {
  id : jsstring;
  email : jsstring;
  name : jsstring;
  role : Role
}.

(** The own properties of a [User] object literal, in the order the
    literal in [login] lists them. *)
Definition User_props (u : User) : list (jsstring * jsstring) :=
  [(str "id", id u); (str "email", email u); (str "name", name u);
   (str "role", Role_string (role u))].

(** The object as a run-time value. *)
Definition User_value (u : User) : jsval :=
  VObject (map (fun kv => (fst kv, VString (snd kv))) (User_props u)).

(** [JSON.stringify(newUser)] *)
Definition JSON_stringify (u : User) : jsstring :=
  JSON.SerializeJSONObject (User_props u).

(** The state of the promise [login] returns. *)
Inductive PromiseState := Pending | Fulfilled (result : bool) | Rejected.

(** The callback handed to [setTimeout]: the arrow function of [login],
    closed over its arguments and the [resolve] of its promise. *)
Inductive Task :=
| LoginTimeout (email password : jsstring) (role : Role) (promise : nat).

Record Timer := { due : N; task : Task }.

(** The page: the [user] state of [AuthProvider], [localStorage], the
    clock and timer queue of the event loop, the promises created so far,
    the values [Math.random] will yield (as rendered by
    [toString(36).substr(2, 9)]), what was sent to [console.error], and
    the browser's say on writes to the storage: [quota st k v] tells
    whether a storage holding [st] takes the value [v] under the key
    [k]. *)
Record World := {
  user : jsval;
  localStorage : gmap jsstring jsstring;
  now : N;
  timers : list Timer;
  promises : list PromiseState;
  random : nat -> jsstring;
  draws : nat;
  console : list jsstring;
  quota : gmap jsstring jsstring -> jsstring -> jsstring -> bool
}.

Definition setUser (v : jsval) (w : World) : World :=
  {| user := v; localStorage := localStorage w; now := now w;
     timers := timers w; promises := promises w; random := random w;
     draws := draws w; console := console w; quota := quota w |}.

(** [localStorage.setItem]: the entry is written, or the call throws a
    [QuotaExceededError] ([None]) and the storage stays as it is. *)
Definition setItem (k v : jsstring) (w : World) : option World :=
  if quota w (localStorage w) k v then
    Some {| user := user w; localStorage := <[k := v]> (localStorage w);
            now := now w; timers := timers w; promises := promises w;
            random := random w; draws := draws w; console := console w;
            quota := quota w |}
  else None.

Definition removeItem (k : jsstring) (w : World) : World :=
  {| user := user w; localStorage := delete k (localStorage w); now := now w;
     timers := timers w; promises := promises w; random := random w;
     draws := draws w; console := console w; quota := quota w |}.

(** [getItem] answers [null] for a missing key. *)
Definition getItem (k : jsstring) (w : World) : option jsstring :=
  localStorage w !! k.

Definition console_error (msg : jsstring) (w : World) : World :=
  {| user := user w; localStorage := localStorage w; now := now w;
     timers := timers w; promises := promises w; random := random w;
     draws := draws w; console := console w ++ [msg];
     quota := quota w |}.

(** [Math.random().toString(36).substr(2, 9)] *)
Definition Math_random (w : World) : jsstring * World :=
  (random w (draws w),
   {| user := user w; localStorage := localStorage w; now := now w;
      timers := timers w; promises := promises w; random := random w;
      draws := S (draws w); console := console w; quota := quota w |}).

(** A timer goes behind the timers that are due no later than it is. *)
Fixpoint insert_timer (t : Timer) (ts : list Timer) : list Timer :=
  match ts with
  | [] => [t]
  | t' :: rest =>
    if due t' <=? due t then t' :: insert_timer t rest else t :: ts
  end.

Definition setTimeout (cb : Task) (delay : N) (w : World) : World :=
  {| user := user w; localStorage := localStorage w; now := now w;
     timers := insert_timer {| due := now w + delay; task := cb |} (timers w);
     promises := promises w; random := random w;
     draws := draws w; console := console w; quota := quota w |}.

(** [new Promise(...)]: a fresh pending promise, named by its index. *)
Definition new_Promise (w : World) : nat * World :=
  (length (promises w),
   {| user := user w; localStorage := localStorage w; now := now w;
      timers := timers w; promises := promises w ++ [Pending];
      random := random w; draws := draws w; console := console w; quota := quota w |}).

(** [resolve(b)] settles a pending promise and does nothing to a settled
    one. *)
Definition settle (b : bool) (s : PromiseState) : PromiseState :=
  match s with
  | Pending => Fulfilled b
  | _ => s
  end.

Definition resolve (p : nat) (b : bool) (w : World) : World :=
  {| user := user w; localStorage := localStorage w; now := now w;
     timers := timers w; promises := alter (settle b) p (promises w);
     random := random w; draws := draws w; console := console w; quota := quota w |}.

Definition promise_state (p : nat) (w : World) : option PromiseState :=
  promises w !! p.

(** [login]: the call itself creates the promise and arms the timer. *)
Definition login (email password : jsstring) (role : Role) (w : World)
  : nat * World :=
  let '(p, w1) := new_Promise w in
  (p, setTimeout (LoginTimeout email password role p) 500 w1).

(** The body of the timer callback of [login]. Nothing catches what
    [setItem] throws: the callback ends there, after [setUser] and before
    [resolve]. *)
Definition run_task (t : Task) (w : World) : World :=
  match t with
  | LoginTimeout email password role p =>
    if (4 <=? length password)%nat then
      let '(rnd, w1) := Math_random w in
      let newUser := {| id := rnd;
                        email := email;
                        name := hd [] (JSString.split 0x40 email);
                        role := role |} in
      let w2 := setUser (User_value newUser) w1 in
      match setItem (str "user") (JSON_stringify newUser) w2 with
      | Some w3 => resolve p true w3
      | None => w2
      end
    else resolve p false w
  end.

(** [logout] *)
Definition logout (w : World) : World :=
  removeItem (str "user") (setUser VNull w).

(** The mount effect of [AuthProvider]. *)
Definition restore (w : World) : World :=
  match getItem (str "user") w with
  | Some savedUser =>
    if ToBoolean (VString savedUser) then
      match JSON.JSON_parse savedUser with
      | Some v => setUser v w
      | None =>
        removeItem (str "user")
          (console_error (str "Error al cargar usuario desde localStorage:") w)
      end
    else w
  | None => w
  end.

(** A page load: fresh React state over the storage the browser kept,
    then the mount effect. *)
Definition page (storage : gmap jsstring jsstring) (rnd : nat -> jsstring)
  (q : gmap jsstring jsstring -> jsstring -> jsstring -> bool) : World :=
  {| user := VNull; localStorage := storage; now := 0; timers := [];
     promises := []; random := rnd; draws := 0; console := []; quota := q |}.

Definition mount (storage : gmap jsstring jsstring) (rnd : nat -> jsstring)
  (q : gmap jsstring jsstring -> jsstring -> jsstring -> bool) : World :=
  restore (page storage rnd q).

(** Two browsers: one that takes every write, and one whose storage is
    full or switched off and takes none. *)
Definition unlimited : gmap jsstring jsstring -> jsstring -> jsstring -> bool :=
  fun _ _ _ => true.

Definition exhausted : gmap jsstring jsstring -> jsstring -> jsstring -> bool :=
  fun _ _ _ => false.

(** The writes [login] makes are all taken. *)
Definition accepting (w : World) : Prop :=
  forall st v, quota w st (str "user") v = true.

(** The event loop: the first timer of the queue fires when it is due. *)
Definition set_clock (t : N) (rest : list Timer) (w : World) : World :=
  {| user := user w; localStorage := localStorage w; now := N.max (now w) t;
     timers := rest; promises := promises w; random := random w;
     draws := draws w; console := console w; quota := quota w |}.

Definition fire (w : World) : option World :=
  match timers w with
  | [] => None
  | t :: rest => Some (run_task (task t) (set_clock (due t) rest w))
  end.

(** Every timer due at [t] or before fires, in queue order. *)
Fixpoint run_timers (fuel : nat) (t : N) (w : World) : World :=
  match fuel with
  | O => w
  | S f =>
    match timers w with
    | [] => w
    | tm :: _ =>
      if due tm <=? t then
        match fire w with
        | Some w' => run_timers f t w'
        | None => w
        end
      else w
    end
  end.

Definition run_until (t : N) (w : World) : World :=
  set_clock t (timers (run_timers (length (timers w)) t w))
            (run_timers (length (timers w)) t w).

(** The context value [AuthProvider] hands to its children. *)
Record AuthContextType := {
  ctx_user : jsval;
  isAuthenticated : bool;
  ctx_login : jsstring -> jsstring -> Role -> World -> nat * World;
  ctx_logout : World -> World
}.

Definition value (w : World) : AuthContextType :=
  {| ctx_user := user w;
     isAuthenticated := ToBoolean (user w);
     ctx_login := login;
     ctx_logout := logout |}.

(** [useContext(AuthContext)]: the value of the nearest enclosing
    provider, and the default [undefined] (here [None]) when there is
    none. [scope] lists the values of the enclosing [AuthProvider]s,
    innermost first; [AuthContext] is not exported, so no other provider
    of it exists. *)
Definition useContext (scope : list AuthContextType) : option AuthContextType :=
  match scope with
  | v :: _ => Some v
  | [] => None
  end.

Inductive Completion (A : Type) :=
| Return (a : A)
| Throw (message : jsstring).
Arguments Return {A} a.
Arguments Throw {A} message.

Definition useAuth (scope : list AuthContextType) : Completion AuthContextType :=
  match useContext scope with
  | None => Throw (str "useAuth debe ser usado dentro de un AuthProvider")
  | Some context => Return context
  end.

End AuthContext.

(** ** The login form: [src/pages/Login.tsx] *)

Module Login.
Import AuthContext.

Inductive UIEffect :=
| toast_error (message : jsstring)
| toast_success (message : jsstring)
| navigate (path : jsstring)
| setIsLoading (loading : bool)
| log_error (message : jsstring).

(** [handleSubmit] up to its [await]: the validation of the form, then
    the call of [login]. The promise it waits for comes with the effects
    when validation lets the call through. *)
Definition handleSubmit (email password : jsstring) (role : Role) (w : World)
  : list UIEffect * option nat * World :=
  if negb (ToBoolean (VString email)) || negb (ToBoolean (VString password)) then
    ([toast_error (str "Por favor completa todos los campos")], None, w)
  else if (length password <? 4)%nat then
    ([toast_error (str "La contraseña debe tener al menos 4 caracteres")], None, w)
  else
    let '(p, w1) := login email password role w in
    ([setIsLoading true], Some p, w1).

(** [handleSubmit] from its [await] on, once the promise has settled. *)
Definition handleSubmit_resume (settled : PromiseState) : list UIEffect :=
  match settled with
  | Pending => []
  | Fulfilled true =>
    [toast_success (str "¡Inicio de sesión exitoso!"); navigate (str "/");
     setIsLoading false]
  | Fulfilled false =>
    [toast_error (str "Credenciales incorrectas"); setIsLoading false]
  | Rejected =>
    [toast_error (str "Error al iniciar sesión"); log_error (str "Login error:");
     setIsLoading false]
  end.

End Login.

(** ** The application as a transition system *)

Module App.
Import AuthContext.

(** What can happen to a page: the user submits the login form, some
    component calls [logout], the event loop fires the next timer, or
    the page is loaded again over the storage it left. *)
Inductive step : World -> World -> Prop :=
| step_submit w email password role :
    step w (Login.handleSubmit email password role w).2
| step_logout w :
    step w (logout w)
| step_fire w w' :
    fire w = Some w' -> step w w'
| step_reload w rnd :
    step w (mount (localStorage w) rnd (quota w)).

(** The states a browser without stored session can reach. *)
Inductive reachable : World -> Prop :=
| reachable_start rnd q : reachable (mount ∅ rnd q)
| reachable_step w w' : reachable w -> step w w' -> reachable w'.

(** The same with the operations of the session store called directly,
    as any component under the provider may. *)
Inductive store_step : World -> World -> Prop :=
| store_login w email password role :
    store_step w (login email password role w).2
| store_logout w :
    store_step w (logout w)
| store_fire w w' :
    fire w = Some w' -> store_step w w'
| store_restore w :
    store_step w (restore w).

(** The invariant of the data model, on the value of [user]: the
    identity, when one is present, has a non-empty string for email and
    one of the two role names for role. *)
Definition email_of (v : jsval) : option jsval :=
  match v with
  | VObject props => obj_get (str "email") props
  | _ => None
  end.

Definition role_of (v : jsval) : option jsval :=
  match v with
  | VObject props => obj_get (str "role") props
  | _ => None
  end.

(** The promise a timer callback resolves. *)
Definition promise_of (t : Timer) : nat :=
  match task t with
  | LoginTimeout _ _ _ p => p
  end.

(** What holds of the queue of every page: a timer resolves a promise
    that exists, none is due later than a [login] called now would be,
    and the queue is in the order in which its timers are due. *)
Definition well_formed (w : World) : Prop :=
  Forall (fun t => (promise_of t < length (promises w))%nat) (timers w) /\
  Forall (fun t => due t <= now w + 500) (timers w) /\
  StronglySorted (fun a b => due a <= due b) (timers w).

(** The identity the callback of [login] builds on a page. *)
Definition new_identity (e : jsstring) (r : Role) (w : World) : User :=
  {| id := random w (draws w); email := e;
     name := hd [] (JSString.split 0x40 e); role := r |}.

Inductive store_reachable : World -> Prop :=
| store_reachable_start storage rnd q : store_reachable (page storage rnd q)
| store_reachable_step w w' :
    store_reachable w -> store_step w w' -> store_reachable w'.

(** Two pages that differ in one more timer and in their promises. *)
Definition same_session (extra : Timer) (w w1 : World) : Prop :=
  user w1 = user w /\ localStorage w1 = localStorage w /\
  random w1 = random w /\ draws w1 = draws w /\ quota w1 = quota w /\
  timers w1 = timers w ++ [extra].

Definition identity_ok (v : jsval) : Prop :=
  v = VNull \/
  exists e r, email_of v = Some (VString e) /\ e <> [] /\
              role_of v = Some (VString (Role_string r)).

(** What the pages a browser can reach have in common: the identity in
    memory and the one in storage were built by [login] from an email
    that is not empty, and so will those of the timers still queued. *)
Definition task_email (t : Timer) : jsstring :=
  match task t with
  | LoginTimeout e _ _ _ => e
  end.

Definition session_invariant (w : World) : Prop :=
  (user w = VNull \/ exists u, user w = User_value u /\ email u <> []) /\
  (getItem (str "user") w = None \/
   exists u, getItem (str "user") w = Some (JSON_stringify u) /\ email u <> []) /\
  Forall (fun t => task_email t <> []) (timers w).

(** Pages to run the examples on: no stored session, a fixed supply of
    random ids, and a storage that takes every write, or none. *)
Definition sample_random : nat -> jsstring := fun _ => str "k3j9x2m1q".

Definition sample_page : World := mount ∅ sample_random unlimited.

Definition sample_full_page : World := mount ∅ sample_random exhausted.

(** [sample_page] after the form was submitted with "a@b.com" and "1234"
    for an admin and the timer of that [login] has fired. *)
Definition sample_session : World :=
  run_task (LoginTimeout (str "a@b.com") (str "1234") admin 0)
    (set_clock 500 []
       (Login.handleSubmit (str "a@b.com") (str "1234") admin sample_page).2).

(** The same on [sample_full_page]. *)
Definition sample_refused_session : World :=
  run_task (LoginTimeout (str "a@b.com") (str "1234") admin 0)
    (set_clock 500 []
       (Login.handleSubmit (str "a@b.com") (str "1234") admin
          sample_full_page).2).

End App.

(** ** The dashboard page: [src/pages/Dashboard.tsx] *)

Module Dashboard.

Inductive Trend := positive | negative | neutral.

(** The props of [KPICard]; the optional ones may be left out. *)
Record KPICardProps := {
  title : jsstring;
  value : jsstring;
  subtitle : option jsstring;
  trend : option Trend;
  trendValue : option jsstring
}.

Record DataKey := { key : jsstring; label : jsstring; color : jsstring }.

(** The series exported by [@/lib/dummyData], by name. *)
Inductive Series :=
| salesTrendData | occupancyTrendData | avgRateTrendData | revPARTrendData
| propertyRatingsData | propertyDistributionData.

Section Page.

(** JavaScript numbers and the operations the page applies to them, and
    the formatters of [@/lib/dummyData]. *)
Variable number : Type.
Variable number_gt : number -> number -> bool.
Variable number_sub : number -> number -> number.
Variable Math_abs : number -> number.
Variable number_19_9 number_45_5 : number.
Variable number_toString : number -> jsstring.
Variable toFixed : number -> nat -> jsstring.
Variable formatCurrency formatPercentage : number -> jsstring.

(** The record [getKPIData(property)] returns, with the fields the page
    reads. *)
Record KPIData := {
  revPAR : number;
  profitMargin : number;
  profitPercentage : number;
  avgOccupancyRate : number;
  budgetOccupancyRate : number;
  totalRevenue : number;
  revenueAchievement : number;
  occupancyRate : number;
  adr : number;
  budgetADR : number;
  adrGrowth : number;
  forecastRevPAR : number;
  budgetRevenue : number;
  forecastRevenue : number;
  avgRatePerPerson : number;
  costs : number;
  fara : number;
  faraPercentage : number
}.

(** The React elements the page builds. *)
Inductive Element :=
| div (className : jsstring) (children : list Element)
| h1 (className text : jsstring)
| h2 (className text : jsstring)
| p (className text : jsstring)
| KPICard (props : KPICardProps)
| LineChart (title : jsstring) (data : Series) (dataKeys : list DataKey)
            (formatValue : number -> jsstring)
| PieChart (title : jsstring) (data : Series) (dataKey nameKey : jsstring)
           (showPercentage : bool)
| BarChart (title : jsstring) (data : Series) (dataKey nameKey barColor : jsstring)
           (formatValue : number -> jsstring).

(** [user?.role]: [undefined] for [null] and [undefined], the own
    property of an object, and [undefined] for every other value (no
    prototype of a primitive or of an array has a property of that
    name). *)
Definition optional_role (user : jsval) : jsval :=
  match user with
  | VObject props =>
    match obj_get (str "role") props with
    | Some v => v
    | None => VUndefined
    end
  | _ => VUndefined
  end.

(** [v === 'literal'] *)
Definition strict_equals (v : jsval) (literal : jsstring) : bool :=
  match v with
  | VString s => JSString.eqb s literal
  | _ => false
  end.

(** The view for investors. *)
Definition InvestorView (kpiData : KPIData) : Element :=
  div (str "space-y-6")
    [ div []
        [ h1 (str "text-3xl font-bold text-foreground")
             (str "Dashboard de Inversionista");
          p (str "text-muted-foreground mt-1")
            (str "Vista general de rendimiento y métricas clave") ];
      div (str "grid grid-cols-1 md:grid-cols-2 lg:grid-cols-4 gap-4")
        [ KPICard {| title := str "RevPAR";
                     value := formatCurrency (revPAR kpiData);
                     subtitle := Some (str "Ingreso por habitación disponible");
                     trend := Some positive;
                     trendValue := Some (formatPercentage number_19_9) |};
          KPICard {| title := str "Ganancia Neta";
                     value := formatCurrency (profitMargin kpiData);
                     subtitle := Some (formatPercentage (profitPercentage kpiData)
                                       ++ str " de margen");
                     trend := Some positive;
                     trendValue := Some (formatPercentage number_45_5) |};
          KPICard {| title := str "Ocupación Promedio";
                     value := formatPercentage (avgOccupancyRate kpiData);
                     subtitle := Some (str "Tasa promedio del periodo");
                     trend := Some (if number_gt (avgOccupancyRate kpiData)
                                                 (budgetOccupancyRate kpiData)
                                    then positive else negative);
                     trendValue :=
                       Some (formatPercentage
                               (Math_abs (number_sub (avgOccupancyRate kpiData)
                                                     (budgetOccupancyRate kpiData)))) |};
          KPICard {| title := str "Ventas Totales";
                     value := formatCurrency (totalRevenue kpiData);
                     subtitle := Some (formatPercentage (revenueAchievement kpiData)
                                       ++ str " vs presupuesto");
                     trend := Some positive;
                     trendValue := Some (formatPercentage (revenueAchievement kpiData)) |} ];
      div (str "grid grid-cols-1 lg:grid-cols-2 gap-6")
        [ LineChart (str "Tendencia de RevPAR") revPARTrendData
            [ {| key := str "value"; label := str "Actual";
                 color := str "hsl(var(--chart-1))" |};
              {| key := str "forecast"; label := str "Forecast";
                 color := str "hsl(var(--chart-4))" |} ]
            (fun value => formatCurrency value);
          PieChart (str "Distribución por Propiedad") propertyDistributionData
            (str "value") (str "name") true ] ].

(** The view for administrators. *)
Definition AdminView (kpiData : KPIData) : Element :=
  div (str "space-y-6")
    [ div []
        [ h1 (str "text-3xl font-bold text-foreground")
             (str "Dashboard Administrativo");
          p (str "text-muted-foreground mt-1")
            (str "Información detallada de operaciones y rendimiento") ];
      div (str "grid grid-cols-1 md:grid-cols-2 lg:grid-cols-4 gap-4")
        [ KPICard {| title := str "% Ocupación";
                     value := formatPercentage (occupancyRate kpiData);
                     subtitle := Some (str "Tasa promedio de ocupación");
                     trend := Some positive;
                     trendValue := Some (formatPercentage (avgOccupancyRate kpiData)) |};
          KPICard {| title := str "Ventas";
                     value := formatCurrency (totalRevenue kpiData);
                     subtitle := Some (str "Revenue total");
                     trend := Some positive;
                     trendValue := Some (formatPercentage (revenueAchievement kpiData)) |};
          KPICard {| title := str "ADR";
                     value := formatCurrency (adr kpiData);
                     subtitle := Some (str "Presupuesto");
                     trend := Some (if number_gt (adr kpiData) (budgetADR kpiData)
                                    then positive else negative);
                     trendValue := Some (formatPercentage (adrGrowth kpiData)) |};
          KPICard {| title := str "RevPAR";
                     value := formatCurrency (revPAR kpiData);
                     subtitle := Some (str "Forecast");
                     trend := Some positive;
                     trendValue := Some (formatCurrency (forecastRevPAR kpiData)) |} ];
      div (str "grid grid-cols-1 md:grid-cols-3 gap-4")
        [ KPICard {| title := str "Presupuesto a hoy";
                     value := formatCurrency (budgetRevenue kpiData);
                     subtitle := Some (str "Alojamiento");
                     trend := Some positive;
                     trendValue := Some (formatPercentage (revenueAchievement kpiData)) |};
          KPICard {| title := str "Forecast de ventas";
                     value := formatCurrency (forecastRevenue kpiData);
                     subtitle := Some (str "Alojamiento");
                     trend := None;
                     trendValue := None |};
          KPICard {| title := str "Tarifa promedio (Per)";
                     value := formatCurrency (avgRatePerPerson kpiData);
                     subtitle := Some (str "Tarifa promedio por persona");
                     trend := None;
                     trendValue := None |} ];
      div (str "grid grid-cols-1 md:grid-cols-3 gap-4")
        [ KPICard {| title := str "Gastos y costos";
                     value := formatCurrency (costs kpiData);
                     subtitle := None;
                     trend := None;
                     trendValue := None |};
          KPICard {| title := str "Utilidad/Perdida";
                     value := formatCurrency (profitMargin kpiData);
                     subtitle := Some (str "GOP");
                     trend := Some positive;
                     trendValue := Some (formatPercentage (profitPercentage kpiData)) |};
          KPICard {| title := str "FARA";
                     value := formatCurrency (fara kpiData);
                     subtitle := None;
                     trend := Some neutral;
                     trendValue := Some (formatPercentage (faraPercentage kpiData)) |} ];
      div (str "space-y-6")
        [ h2 (str "text-2xl font-bold text-foreground") (str "Tendencias");
          div (str "grid grid-cols-1 lg:grid-cols-2 gap-6")
            [ LineChart (str "Total ventas") salesTrendData
                [ {| key := str "value"; label := str "Leyenda";
                     color := str "hsl(var(--chart-5))" |};
                  {| key := str "forecast"; label := str "Presupuesto";
                     color := str "hsl(var(--chart-3))" |};
                  {| key := str "historical"; label := str "AGOS";
                     color := str "hsl(var(--chart-1))" |} ]
                (fun value => formatCurrency value);
              LineChart (str "Evolución tasa de ocupación") occupancyTrendData
                [ {| key := str "forecast"; label := str "Forecast";
                     color := str "hsl(var(--chart-1))" |};
                  {| key := str "value"; label := str "ADR";
                     color := str "hsl(var(--chart-2))" |};
                  {| key := str "budget"; label := str "Presupuestado";
                     color := str "hsl(var(--chart-5))" |} ]
                (fun value => number_toString value ++ str "%");
              LineChart (str "Evolución tarifa promedio") avgRateTrendData
                [ {| key := str "forecast"; label := str "Forecast";
                     color := str "hsl(var(--chart-1))" |};
                  {| key := str "value"; label := str "ADR";
                     color := str "hsl(var(--chart-2))" |};
                  {| key := str "budget"; label := str "ADR presupuestado";
                     color := str "hsl(var(--chart-5))" |} ]
                (fun value => formatCurrency value);
              LineChart (str "Evolución RevPAR") revPARTrendData
                [ {| key := str "forecast"; label := str "Forecast";
                     color := str "hsl(var(--chart-1))" |};
                  {| key := str "value"; label := str "Actual";
                     color := str "hsl(var(--chart-2))" |} ]
                (fun value => formatCurrency value) ];
          BarChart (str "Propiedad - Comparación de Ratings") propertyRatingsData
            (str "rating") (str "property") (str "hsl(var(--chart-1))")
            (fun value => toFixed value 2) ] ].

(** The component: [user] comes from [useAuth], [kpiData] from
    [getKPIData(property)]. *)
Definition Dashboard (user : jsval) (kpiData : KPIData) : Element :=
  if strict_equals (optional_role user) (str "investor") then
    InvestorView kpiData
  else
    AdminView kpiData.

(** What a rendered page shows: its headline, its KPI cards and the
    titles of its charts, in document order. *)
Fixpoint headlines (e : Element) : list jsstring :=
  match e with
  | div _ children => flat_map headlines children
  | h1 _ text => [text]
  | _ => []
  end.

Fixpoint cards (e : Element) : list KPICardProps :=
  match e with
  | div _ children => flat_map cards children
  | KPICard props => [props]
  | _ => []
  end.

Fixpoint charts (e : Element) : list jsstring :=
  match e with
  | div _ children => flat_map charts children
  | LineChart t _ _ _ => [t]
  | PieChart t _ _ _ _ => [t]
  | BarChart t _ _ _ _ _ => [t]
  | _ => []
  end.

End Page.

End Dashboard.

(** ** The login page and the persisted session *)

Module LoginPage.
Import AuthContext Login.

(** The effect of [Login] that sends a visitor who is authenticated to
    the dashboard; it runs when the page mounts and when
    [isAuthenticated] changes. *)
Definition redirect (context : AuthContextType) : list UIEffect :=
  if isAuthenticated context then [navigate (str "/")] else [].

(** The identity in memory and the entry in storage say the same. *)
Definition mirrored (w : World) : Prop :=
  (user w = VNull /\ getItem (str "user") w = None) \/
  exists u, user w = User_value u /\
            getItem (str "user") w = Some (JSON_stringify u).

End LoginPage.

(** A KPI record over integers and a formatter to run the dashboard on;
    [secret] fills the fields the investor view does not read. *)
Module Dashboard_samples.
Import Dashboard.

Definition sample_kpi (secret : Z) : KPIData Z :=
  {| revPAR := 185%Z; profitMargin := 920%Z; profitPercentage := 31%Z;
     avgOccupancyRate := 78%Z; budgetOccupancyRate := 75%Z;
     totalRevenue := 2950%Z; revenueAchievement := 104%Z;
     occupancyRate := secret; adr := secret; budgetADR := secret;
     adrGrowth := secret; forecastRevPAR := secret; budgetRevenue := secret;
     forecastRevenue := secret; avgRatePerPerson := secret; costs := secret;
     fara := secret; faraPercentage := secret |}.

Definition sample_format (n : Z) : jsstring := [Z.to_N n].

End Dashboard_samples.

(** * Facts *)

(** ** JSON: the parser does not depend on its fuel, and reads back what
    the serializer writes *)

Module JSON_facts.
Import JSON.

Lemma hexval_hexdigit d : d < 16 -> hexval (hexdigit d) = Some d.
Proof.
  intros Hd. unfold hexdigit.
  destruct (N.ltb_spec d 10) as [Hlt | Hge].
  - unfold hexval, is_digit.
    replace (0x30 <=? 0x30 + d) with true by (symmetry; apply N.leb_le; lia).
    replace (0x30 + d <=? 0x39) with true by (symmetry; apply N.leb_le; lia).
    simpl. f_equal. lia.
  - unfold hexval, is_digit.
    replace (0x30 + 0 <=? 0x39) with true by reflexivity.
    replace (0x61 + (d - 10) <=? 0x39) with false by (symmetry; apply N.leb_gt; lia).
    rewrite andb_false_r.
    replace (0x61 <=? 0x61 + (d - 10)) with true by (symmetry; apply N.leb_le; lia).
    replace (0x61 + (d - 10) <=? 0x66) with true by (symmetry; apply N.leb_le; lia).
    simpl. f_equal. lia.
Qed.

Lemma hex_digits_value c :
  c < 65536 ->
  (c / 4096 mod 16) * 4096 + (c / 256 mod 16) * 256 + (c / 16 mod 16) * 16 + c mod 16 = c.
Proof.
  intros Hc.
  assert (c / 4096 < 16) by (apply N.Div0.div_lt_upper_bound; lia).
  rewrite (N.mod_small (c / 4096) 16) by lia.
  pose proof (N.div_mod c 16 ltac:(lia)).
  pose proof (N.div_mod (c / 16) 16 ltac:(lia)).
  pose proof (N.div_mod (c / 16 / 16) 16 ltac:(lia)).
  rewrite !N.Div0.div_div in *. change (16 * 16) with 256 in *.
  change (256 * 16) with 4096 in *.
  lia.
Qed.


Lemma parse_string_unit c r :
  (c =? 0x22) = false -> (c =? 0x5C) = false -> (c <? 0x20) = false ->
  parse_string (c :: r) = prepend c (parse_string r).
Proof. intros H1 H2 H3. cbn [parse_string]. by rewrite H1, H2, H3. Qed.

Lemma parse_string_short e u r :
  short_escape e = Some u ->
  parse_string (0x5C :: e :: r) = prepend u (parse_string r).
Proof. intros H. cbn [parse_string]. by rewrite H. Qed.

Lemma parse_string_UnicodeEscape c r :
  c < 65536 ->
  parse_string (UnicodeEscape c ++ r) = prepend c (parse_string r).
Proof.
  intros Hc. unfold UnicodeEscape.
  assert (Hd : forall x, hexval (hexdigit (x mod 16)) = Some (x mod 16)).
  { intros x. apply hexval_hexdigit. apply N.mod_lt. lia. }
  change (parse_string ([0x5C; 0x75; hexdigit (c / 4096 mod 16);
            hexdigit (c / 256 mod 16); hexdigit (c / 16 mod 16);
            hexdigit (c mod 16)] ++ r))
    with (match hex4 (hexdigit (c / 4096 mod 16)) (hexdigit (c / 256 mod 16))
                     (hexdigit (c / 16 mod 16)) (hexdigit (c mod 16)) with
          | Some u => prepend u (parse_string r)
          | None => None
          end).
  unfold hex4. rewrite !Hd. by rewrite hex_digits_value.
Qed.

Lemma surrogate_bounds c :
  is_high_surrogate c || is_low_surrogate c = true ->
  c < 65536 /\ (c =? 0x22) = false /\ (c =? 0x5C) = false /\ (c <? 0x20) = false.
Proof.
  unfold is_high_surrogate, is_low_surrogate. intros H.
  assert (0xD800 <= c <= 0xDFFF) by
    (apply orb_true_iff in H as [H | H]; apply andb_true_iff in H as [H1 H2];
     apply N.leb_le in H1, H2; lia).
  repeat split; try lia; [apply N.eqb_neq | apply N.eqb_neq | apply N.ltb_ge]; lia.
Qed.

Ltac short_case c e IHr :=
  subst c; cbn [app];
  rewrite (parse_string_short e _ _ eq_refl), IHr; reflexivity.

Lemma parse_string_quote_units_bounded n :
  forall s rest, (length s <= n)%nat ->
  parse_string (quote_units s ++ 0x22 :: rest) = Some (s, rest).
Proof.
  induction n as [| n IH]; intros s rest Hlen.
  - destruct s; [reflexivity | simpl in Hlen; lia].
  - destruct s as [| c r]; [reflexivity |].
    simpl in Hlen.
    assert (IHr : parse_string (quote_units r ++ 0x22 :: rest) = Some (r, rest))
      by (apply IH; lia).
    cbn [quote_units].
    destruct (N.eqb_spec c 0x08); [short_case c 0x62 IHr |].
    destruct (N.eqb_spec c 0x09); [short_case c 0x74 IHr |].
    destruct (N.eqb_spec c 0x0A); [short_case c 0x6E IHr |].
    destruct (N.eqb_spec c 0x0C); [short_case c 0x66 IHr |].
    destruct (N.eqb_spec c 0x0D); [short_case c 0x72 IHr |].
    destruct (N.eqb_spec c 0x22) as [| Hq]; [short_case c 0x22 IHr |].
    destruct (N.eqb_spec c 0x5C) as [| Hb]; [short_case c 0x5C IHr |].
    apply N.eqb_neq in Hq, Hb.
    destruct (N.ltb_spec c 0x20) as [Hctl | Hctl].
    { rewrite <- app_assoc, parse_string_UnicodeEscape, IHr by lia. reflexivity. }
    apply N.ltb_ge in Hctl.
    destruct (is_high_surrogate c) eqn:Hhi.
    { destruct (surrogate_bounds c) as (Hc & _); [by rewrite Hhi |].
      destruct r as [| d r'].
      - rewrite parse_string_UnicodeEscape by done. reflexivity.
      - destruct (is_low_surrogate d) eqn:Hlo.
        + destruct (surrogate_bounds d) as (_ & Hdq & Hdb & Hdc);
            [by rewrite Hlo, orb_true_r |].
          cbn [app]. rewrite parse_string_unit by done.
          rewrite parse_string_unit by done.
          rewrite IH by (simpl in Hlen; lia). reflexivity.
        + rewrite <- app_assoc, parse_string_UnicodeEscape, IHr by done.
          reflexivity. }
    destruct (is_low_surrogate c) eqn:Hlo.
    { destruct (surrogate_bounds c) as (Hc & _); [by rewrite Hlo, orb_true_r |].
      rewrite <- app_assoc, parse_string_UnicodeEscape, IHr by done. reflexivity. }
    cbn [app]. rewrite parse_string_unit, IHr by done. reflexivity.
Qed.

Lemma parse_string_quote_units s rest :
  parse_string (quote_units s ++ 0x22 :: rest) = Some (s, rest).
Proof. by apply (parse_string_quote_units_bounded (length s)). Qed.

Lemma parse_fuel_mono f :
  forall f', (f <= f')%nat ->
  (forall s res, parse_value f s = Some res -> parse_value f' s = Some res) /\
  (forall s acc res, parse_members f s acc = Some res ->
                     parse_members f' s acc = Some res) /\
  (forall s acc res, parse_elements f s acc = Some res ->
                     parse_elements f' s acc = Some res).
Proof.
  induction f as [| f IH]; intros f' Hle.
  - repeat split; intros; discriminate.
  - destruct f' as [| f']; [lia |].
    destruct (IH f' ltac:(lia)) as (IHv & IHm & IHe).
    repeat split.
    + intros s res. simpl.
      repeat case_match; try done; eauto.
    + intros s acc res. simpl.
      destruct (skip_ws s) as [| c r]; [done |].
      destruct (c =? 0x22); [| done].
      destruct (parse_string r) as [[k r1] |]; [| done].
      destruct (skip_ws r1) as [| c1 r2]; [done |].
      destruct (c1 =? 0x3A); [| done].
      destruct (parse_value f r2) as [[v r3] |] eqn:Hv; [| done].
      rewrite (IHv _ _ Hv).
      repeat case_match; try done; eauto.
    + intros s acc res. simpl.
      destruct (parse_value f s) as [[v r1] |] eqn:Hv; [| done].
      rewrite (IHv _ _ Hv).
      repeat case_match; try done; eauto.
Qed.

Lemma skip_ws_length s : (length (skip_ws s) <= length s)%nat.
Proof.
  induction s as [| c r IH]; simpl; [lia |].
  destruct (is_ws c); simpl; lia.
Qed.

Lemma skip_ws_cons s c r :
  skip_ws s = c :: r -> (length r < length s)%nat.
Proof. intros H. pose proof (skip_ws_length s) as Hl. rewrite H in Hl. simpl in Hl. lia. Qed.

Lemma prepend_Some u o t r :
  prepend u o = Some (t, r) -> exists t', o = Some (t', r).
Proof. destruct o as [[t' r'] |]; simpl; [| done]. intros [= <- <-]. eauto. Qed.

Lemma parse_string_length_bounded n :
  forall s t r, (length s <= n)%nat ->
  parse_string s = Some (t, r) -> (length r < length s)%nat.
Proof.
  induction n as [| n IH]; intros s t r Hn.
  - destruct s; [done | simpl in Hn; lia].
  - destruct s as [| c s1]; [done |]. simpl in Hn. cbn [parse_string].
    destruct (c =? 0x22). { intros [= <- <-]. simpl. lia. }
    destruct (c =? 0x5C).
    + destruct s1 as [| e s2]; [done |]. simpl in Hn.
      destruct (short_escape e).
      { intros (t' & H)%prepend_Some. apply IH in H; simpl; lia. }
      destruct (e =? 0x75); [| done].
      destruct s2 as [| h3 [| h2 [| h1 [| h0 s3]]]]; try done.
      destruct (hex4 h3 h2 h1 h0); [| done]. simpl in Hn.
      intros (t' & H)%prepend_Some. apply IH in H; simpl; lia.
    + destruct (c <? 0x20); [done |].
      intros (t' & H)%prepend_Some. apply IH in H; simpl; lia.
Qed.

Lemma parse_string_length s t r :
  parse_string s = Some (t, r) -> (length r < length s)%nat.
Proof. by apply (parse_string_length_bounded (length s)). Qed.

Lemma take_digits_length s :
  (length (take_digits s).2 <= length s)%nat.
Proof.
  induction s as [| c r IH]; simpl; [lia |].
  destruct (is_digit c); simpl; [| lia].
  destruct (take_digits r); simpl in *; lia.
Qed.

Lemma strip_prefix_length p : forall s r,
  strip_prefix p s = Some r -> (length r <= length s)%nat.
Proof.
  induction p as [| x p IH]; intros s r; simpl.
  - intros [= ->]. lia.
  - destruct s as [| y s]; [done |]. destruct (x =? y); [| done].
    intros H%IH. simpl. lia.
Qed.

Lemma parse_int_length s ds r :
  parse_int s = Some (ds, r) -> (length r < length s)%nat.
Proof.
  unfold parse_int. destruct s as [| c s1]; [done |].
  destruct (c =? 0x30). { intros [= <- <-]. simpl. lia. }
  destruct (is_digit c) eqn:Hd; [| done].
  intros [= H]. simpl in H. rewrite Hd in H.
  pose proof (take_digits_length s1) as Hl.
  destruct (take_digits s1); simplify_eq/=. lia.
Qed.

Lemma parse_frac_length s ds r :
  parse_frac s = Some (ds, r) -> (length r <= length s)%nat.
Proof.
  unfold parse_frac. destruct s as [| c s1]; [by intros [= <- <-] |].
  destruct (c =? 0x2E); [| by intros [= <- <-]].
  pose proof (take_digits_length s1) as Hl.
  destruct (take_digits s1) as [[| d ds'] r']; [done |].
  intros [= <- <-]. simpl in *. lia.
Qed.

Lemma parse_exp_length s e r :
  parse_exp s = Some (e, r) -> (length r <= length s)%nat.
Proof.
  unfold parse_exp. destruct s as [| c s1]; [by intros [= <- <-] |].
  destruct ((c =? 0x65) || (c =? 0x45)); [| by intros [= <- <-]].
  assert (forall neg r1, (length r1 <= length s1)%nat ->
    match take_digits r1 with
    | ([], _) => None
    | (ds, rest) => Some (Some (neg, ds), rest)
    end = Some (e, r) -> (length r <= length (c :: s1))%nat) as Haux.
  { intros neg r1 Hr1. pose proof (take_digits_length r1) as Hl.
    destruct (take_digits r1) as [[| d ds'] r']; [done |].
    intros [= <- <-]. simpl in *. lia. }
  destruct s1 as [| sg s2]; [by apply Haux |].
  destruct (sg =? 0x2D); [apply Haux; simpl; lia |].
  destruct (sg =? 0x2B); apply Haux; simpl; lia.
Qed.

Lemma parse_number_length s n r :
  parse_number s = Some (n, r) -> (length r < length s)%nat.
Proof.
  unfold parse_number.
  set (p := match s with
            | c :: r0 => if c =? 0x2D then (true, r0) else (false, s)
            | [] => (false, s)
            end).
  assert (length p.2 <= length s)%nat as Hp.
  { subst p. destruct s as [| c r0]; [done |]. destruct (c =? 0x2D); simpl; lia. }
  destruct p as [neg s1]. simpl in Hp.
  destruct (parse_int s1) as [[i s2] |] eqn:Hi; [| done].
  destruct (parse_frac s2) as [[fr s3] |] eqn:Hf; [| done].
  destruct (parse_exp s3) as [[e s4] |] eqn:He; [| done].
  intros [= <- <-].
  apply parse_int_length in Hi. apply parse_frac_length in Hf.
  apply parse_exp_length in He. lia.
Qed.

#[local] Arguments strip_prefix : simpl never.
#[local] Arguments parse_number : simpl never.

Lemma parse_length f :
  (forall s v r, parse_value f s = Some (v, r) -> (length r < length s)%nat) /\
  (forall s acc v r, parse_members f s acc = Some (v, r) ->
                     (length r < length s)%nat) /\
  (forall s acc v r, parse_elements f s acc = Some (v, r) ->
                     (length r < length s)%nat).
Proof.
  induction f as [| f (IHv & IHm & IHe)]; [repeat split; intros; discriminate |].
  repeat split.
  - intros s v r. simpl.
    destruct (skip_ws s) as [| c s1] eqn:Hs; [done |].
    apply skip_ws_cons in Hs.
    destruct (c =? 0x22).
    { destruct (parse_string s1) as [[t rest] |] eqn:Ht; [| done].
      intros [= <- <-]. apply parse_string_length in Ht. lia. }
    destruct (c =? 0x7B).
    { destruct (skip_ws s1) as [| c1 r1] eqn:Hs1; [done |].
      apply skip_ws_cons in Hs1.
      destruct (c1 =? 0x7D); [intros [= <- <-]; lia |].
      intros H%IHm. simpl in H. lia. }
    destruct (c =? 0x5B).
    { destruct (skip_ws s1) as [| c1 r1] eqn:Hs1; [done |].
      apply skip_ws_cons in Hs1.
      destruct (c1 =? 0x5D); [intros [= <- <-]; lia |].
      intros H%IHe. simpl in H. lia. }
    destruct (c =? 0x74).
    { match goal with |- context [strip_prefix ?p s1] =>
        destruct (strip_prefix p s1) eqn:Hp; [| done] end.
      intros [= <- <-]. apply strip_prefix_length in Hp. lia. }
    destruct (c =? 0x66).
    { match goal with |- context [strip_prefix ?p s1] =>
        destruct (strip_prefix p s1) eqn:Hp; [| done] end.
      intros [= <- <-]. apply strip_prefix_length in Hp. lia. }
    destruct (c =? 0x6E).
    { match goal with |- context [strip_prefix ?p s1] =>
        destruct (strip_prefix p s1) eqn:Hp; [| done] end.
      intros [= <- <-]. apply strip_prefix_length in Hp. lia. }
    destruct (parse_number (c :: s1)) as [[n rest] |] eqn:Hn; [| done].
    intros [= <- <-]. apply parse_number_length in Hn. simpl in Hn. lia.
  - intros s acc v r. simpl.
    destruct (skip_ws s) as [| c s1] eqn:Hs; [done |].
    apply skip_ws_cons in Hs.
    destruct (c =? 0x22); [| done].
    destruct (parse_string s1) as [[k r1] |] eqn:Hk; [| done].
    apply parse_string_length in Hk.
    destruct (skip_ws r1) as [| c1 r2] eqn:Hr1; [done |].
    apply skip_ws_cons in Hr1.
    destruct (c1 =? 0x3A); [| done].
    destruct (parse_value f r2) as [[v' r3] |] eqn:Hv; [| done].
    apply IHv in Hv.
    destruct (skip_ws r3) as [| c3 r4] eqn:Hr3; [done |].
    apply skip_ws_cons in Hr3.
    destruct (c3 =? 0x2C); [intros H%IHm; lia |].
    destruct (c3 =? 0x7D); [| done].
    intros [= <- <-]. lia.
  - intros s acc v r. simpl.
    destruct (parse_value f s) as [[v' r1] |] eqn:Hv; [| done].
    apply IHv in Hv.
    destruct (skip_ws r1) as [| c r2] eqn:Hr1; [done |].
    apply skip_ws_cons in Hr1.
    destruct (c =? 0x2C); [intros H%IHe; lia |].
    destruct (c =? 0x5D); [| done].
    intros [= <- <-]. lia.
Qed.

(** Fuel beyond the length of the text changes nothing. *)
Lemma parse_fuel_enough f :
  forall f', (f <= f')%nat ->
  (forall s, (2 * length s < f)%nat -> parse_value f' s = parse_value f s) /\
  (forall s acc, (2 * length s < f)%nat ->
                 parse_members f' s acc = parse_members f s acc) /\
  (forall s acc, (2 * length s + 1 < f)%nat ->
                 parse_elements f' s acc = parse_elements f s acc).
Proof.
  induction f as [| f IH]; intros f' Hle; [repeat split; intros; lia |].
  destruct f' as [| f']; [lia |].
  destruct (IH f' ltac:(lia)) as (IHv & IHm & IHe).
  destruct (parse_length f) as (Lv & Lm & Le).
  repeat split.
  - intros s Hs. simpl.
    destruct (skip_ws s) as [| c s1] eqn:Hs1; [done |].
    apply skip_ws_cons in Hs1.
    destruct (skip_ws s1) as [| c1 r1] eqn:Hs2.
    { reflexivity. }
    apply skip_ws_cons in Hs2.
    rewrite IHm, IHe by (simpl; lia). reflexivity.
  - intros s acc Hs. simpl.
    destruct (skip_ws s) as [| c s1] eqn:Hs1; [done |].
    apply skip_ws_cons in Hs1.
    destruct (c =? 0x22); [| done].
    destruct (parse_string s1) as [[k r1] |] eqn:Hk; [| done].
    apply parse_string_length in Hk.
    destruct (skip_ws r1) as [| c1 r2] eqn:Hr1; [done |].
    apply skip_ws_cons in Hr1.
    destruct (c1 =? 0x3A); [| done].
    rewrite IHv by lia.
    destruct (parse_value f r2) as [[v' r3] |] eqn:Hv; [| done].
    apply Lv in Hv.
    destruct (skip_ws r3) as [| c3 r4] eqn:Hr3; [done |].
    apply skip_ws_cons in Hr3.
    rewrite IHm by lia. reflexivity.
  - intros s acc Hs. simpl.
    rewrite IHv by lia.
    destruct (parse_value f s) as [[v' r1] |] eqn:Hv; [| done].
    apply Lv in Hv.
    destruct (skip_ws r1) as [| c r2] eqn:Hr1; [done |].
    apply skip_ws_cons in Hr1.
    rewrite IHe by lia. reflexivity.
Qed.

(** [JSON_parse] does not depend on its choice of fuel: whatever some
    amount of fuel parses, [JSON_parse] parses. *)
Lemma parse_value_any_fuel f s res :
  parse_value f s = Some res -> parse_value (S (2 * length s)) s = Some res.
Proof.
  intros H.
  destruct (Nat.le_ge_cases f (S (2 * length s))) as [Hle | Hge].
  - by apply (parse_fuel_mono f _ Hle).
  - destruct (parse_fuel_enough (S (2 * length s)) f Hge) as (Hv & _).
    rewrite <- Hv by lia. done.
Qed.

Lemma parse_value_string f r :
  parse_value (S f) (0x22 :: r) =
  match parse_string r with
  | Some (t, rest) => Some (VString t, rest)
  | None => None
  end.
Proof. reflexivity. Qed.

Lemma parse_value_QuoteJSONString f s rest :
  parse_value (S f) (QuoteJSONString s ++ rest) = Some (VString s, rest).
Proof.
  unfold QuoteJSONString. cbn [app]. rewrite <- app_assoc. cbn [app].
  by rewrite parse_value_string, parse_string_quote_units.
Qed.

Lemma parse_members_key f r acc :
  parse_members (S f) (0x22 :: r) acc =
  match parse_string r with
  | Some (k, r1) =>
    match skip_ws r1 with
    | c1 :: r2 =>
      if c1 =? 0x3A then
        match parse_value f r2 with
        | Some (v, r3) =>
          match skip_ws r3 with
          | c3 :: r4 =>
            if c3 =? 0x2C then parse_members f r4 (obj_set k v acc)
            else if c3 =? 0x7D then Some (VObject (obj_set k v acc), r4)
            else None
          | [] => None
          end
        | None => None
        end
      else None
    | [] => None
    end
  | None => None
  end.
Proof. reflexivity. Qed.

Lemma parse_members_member f kv rest acc :
  parse_members (S (S f)) (member kv ++ rest) acc =
  match skip_ws rest with
  | c3 :: r4 =>
    if c3 =? 0x2C then parse_members (S f) r4 (obj_set kv.1 (VString kv.2) acc)
    else if c3 =? 0x7D then Some (VObject (obj_set kv.1 (VString kv.2) acc), r4)
    else None
  | [] => None
  end.
Proof.
  unfold member. unfold QuoteJSONString at 1.
  cbn [app]. rewrite <- !app_assoc. cbn [app].
  rewrite parse_members_key, parse_string_quote_units.
  change (skip_ws (0x3A :: ?x)) with (0x3A :: x).
  change (0x3A =? 0x3A) with true. cbv iota.
  by rewrite parse_value_QuoteJSONString.
Qed.

Lemma parse_members_join props : forall p acc rest f,
  (length props <= f)%nat ->
  parse_members (S (S f)) (join_comma (map member (p :: props)) ++ 0x7D :: rest) acc
  = Some (VObject (define_all (p :: props) acc), rest).
Proof.
  induction props as [| q props IH]; intros p acc rest f Hf.
  - cbn [map join_comma]. rewrite parse_members_member. reflexivity.
  - change (join_comma (map member (p :: q :: props)))
      with (member p ++ 0x2C :: join_comma (map member (q :: props))).
    rewrite <- app_assoc, parse_members_member. cbn [app].
    change (skip_ws (0x2C :: ?x)) with (0x2C :: x).
    change (0x2C =? 0x2C) with true. cbv iota.
    simpl in Hf. destruct f as [| f]; [lia |].
    rewrite IH by lia. reflexivity.
Qed.

Lemma parse_value_SerializeJSONObject props rest :
  parse_value (3 + length props) (SerializeJSONObject props ++ rest)
  = Some (VObject (define_all props []), rest).
Proof.
  unfold SerializeJSONObject.
  destruct props as [| p props]; [reflexivity |].
  change (fun kv : jsstring * jsstring =>
            QuoteJSONString kv.1 ++ 0x3A :: QuoteJSONString kv.2) with member.
  cbn [app]. rewrite <- app_assoc. cbn [app].
  transitivity (parse_members (S (S (S (length props))))
    (join_comma (map member (p :: props)) ++ 0x7D :: rest) []).
  - destruct props; reflexivity.
  - apply parse_members_join. lia.
Qed.

(** Parsing the serialization of an object of strings defines its
    properties again, in order. *)
Lemma JSON_parse_SerializeJSONObject props :
  JSON_parse (SerializeJSONObject props) = Some (VObject (define_all props [])).
Proof.
  unfold JSON_parse.
  pose proof (parse_value_SerializeJSONObject props []) as H.
  rewrite app_nil_r in H. apply parse_value_any_fuel in H.
  by rewrite H.
Qed.

Lemma JSON_parse_stringify (u : AuthContext.User) :
  JSON_parse (AuthContext.JSON_stringify u) = Some (AuthContext.User_value u).
Proof.
  unfold AuthContext.JSON_stringify. rewrite JSON_parse_SerializeJSONObject.
  destruct u as [i e n r]. destruct r; reflexivity.
Qed.

End JSON_facts.

(** ** The session store *)

Module Store_facts.
Import AuthContext App.

Lemma split_nonempty sep s : JSString.split sep s <> [].
Proof.
  destruct s as [| c r]; simpl; [done |].
  destruct (c =? sep); [done |]. by destruct (JSString.split sep r).
Qed.

(** The first piece of a split is the string up to the first separator. *)
Lemma split_head sep s :
  exists rest,
    s = hd [] (JSString.split sep s) ++ rest /\
    ~ In sep (hd [] (JSString.split sep s)) /\
    (rest = [] \/ exists r, rest = sep :: r).
Proof.
  induction s as [| c r (rest & Heq & Hnot & Hrest)]; simpl.
  - exists []. auto.
  - destruct (N.eqb_spec c sep) as [-> | Hne]; simpl.
    + exists (sep :: r). split; [done |]. split; [by intros [] | right; eauto].
    + pose proof (split_nonempty sep r) as Hn.
      destruct (JSString.split sep r) as [| piece pieces]; [done |].
      simpl in *. exists rest. split; [by f_equal |]. split; [| done].
      intros [? | ?]; [congruence | done].
Qed.

Lemma insert_timer_last t ts :
  Forall (fun t' => due t' <= due t) ts -> insert_timer t ts = ts ++ [t].
Proof.
  induction 1 as [| t' ts Hle _ IH]; simpl; [done |].
  apply N.leb_le in Hle. by rewrite Hle, IH.
Qed.

Ltac run_task_unfold :=
  unfold run_task, setItem, Math_random, setUser;
  cbn [user localStorage now timers promises random draws console quota].

(** The callback of [login] touches neither the queue, nor the clock,
    nor the browser's say on writes, and no promise but its own. *)
Lemma run_task_timers T w : timers (run_task T w) = timers w.
Proof.
  destruct T as [e pw r p]. run_task_unfold.
  repeat case_match; simplify_eq; done.
Qed.

Lemma run_task_now T w : now (run_task T w) = now w.
Proof.
  destruct T as [e pw r p]. run_task_unfold.
  repeat case_match; simplify_eq; done.
Qed.

Lemma run_task_quota T w : quota (run_task T w) = quota w.
Proof.
  destruct T as [e pw r p]. run_task_unfold.
  repeat case_match; simplify_eq; done.
Qed.

Lemma run_task_promises_length T w :
  length (promises (run_task T w)) = length (promises w).
Proof.
  destruct T as [e pw r p]. run_task_unfold.
  repeat case_match; simplify_eq; simpl; by rewrite ?length_alter.
Qed.

Lemma run_task_other_promise T w q :
  q <> match T with LoginTimeout _ _ _ p => p end ->
  promise_state q (run_task T w) = promise_state q w.
Proof.
  intros Hq. destruct T as [e pw r p]. unfold promise_state. run_task_unfold.
  repeat case_match; simplify_eq; simpl; by rewrite ?list_lookup_alter_ne.
Qed.

(** A password of fewer than four units: nothing but the promise
    changes. *)
Lemma run_task_rejects e pw r p w :
  (length pw < 4)%nat ->
  run_task (LoginTimeout e pw r p) w = resolve p false w.
Proof. intros Hlen%Nat.leb_gt. unfold run_task. by rewrite Hlen. Qed.

(** A password of four units or more: the new identity is installed,
    whatever becomes of the write. *)
Lemma run_task_user e pw r p w :
  (4 <= length pw)%nat ->
  user (run_task (LoginTimeout e pw r p) w) = User_value (new_identity e r w).
Proof.
  intros Hlen%Nat.leb_le. run_task_unfold. rewrite Hlen.
  destruct (quota w _ _ _); done.
Qed.

(** The write is taken: the entry is stored and the promise resolved. *)
Lemma run_task_stored e pw r p w :
  (4 <= length pw)%nat ->
  quota w (localStorage w) (str "user") (JSON_stringify (new_identity e r w))
  = true ->
  localStorage (run_task (LoginTimeout e pw r p) w)
  = <[str "user" := JSON_stringify (new_identity e r w)]> (localStorage w) /\
  promises (run_task (LoginTimeout e pw r p) w)
  = alter (settle true) p (promises w).
Proof.
  intros Hlen%Nat.leb_le Hq. run_task_unfold. rewrite Hlen.
  unfold new_identity in Hq. by rewrite Hq.
Qed.

(** The write is refused: nothing is stored and no promise resolved. *)
Lemma run_task_refused e pw r p w :
  (4 <= length pw)%nat ->
  quota w (localStorage w) (str "user") (JSON_stringify (new_identity e r w))
  = false ->
  localStorage (run_task (LoginTimeout e pw r p) w) = localStorage w /\
  promises (run_task (LoginTimeout e pw r p) w) = promises w.
Proof.
  intros Hlen%Nat.leb_le Hq. run_task_unfold. rewrite Hlen.
  unfold new_identity in Hq. by rewrite Hq.
Qed.

(** *** The event loop *)

Lemma run_timers_S n t w :
  run_timers (S n) t w =
  match timers w with
  | [] => w
  | tm :: _ =>
    if due tm <=? t then
      match fire w with
      | Some w' => run_timers n t w'
      | None => w
      end
    else w
  end.
Proof. reflexivity. Qed.

Lemma fire_cons w tm rest :
  timers w = tm :: rest ->
  fire w = Some (run_task (task tm) (set_clock (due tm) rest w)).
Proof. unfold fire. by intros ->. Qed.

Lemma run_task_same_session extra T d rest w w1 :
  same_session extra w w1 ->
  same_session extra (run_task T (set_clock d rest w))
                     (run_task T (set_clock d (rest ++ [extra]) w1)).
Proof.
  intros (Hu & Hs & Hr & Hd & Hq & Ht). unfold same_session.
  destruct T as [e pw r p]. unfold set_clock. run_task_unfold.
  rewrite Hu, Hs, Hr, Hd, Hq.
  repeat case_match; simplify_eq; done.
Qed.

(** A page and the same page with one more timer at the end of its
    queue, all of them due: the event loop does to both the same, and
    then runs the callback of the one more timer. That callback finds the
    session as the first page ends with it, and a promise that no other
    timer resolves as it was. *)
Lemma run_timers_lockstep t p tm n : forall w w1,
  same_session tm w w1 ->
  Forall (fun t' => due t' <= t) (timers w) -> due tm <= t ->
  Forall (fun t' => promise_of t' <> p) (timers w) ->
  (length (timers w) <= n)%nat ->
  exists w',
    run_timers (S n) t w1 = run_task (task tm) w' /\
    user w' = user (run_timers n t w) /\
    localStorage w' = localStorage (run_timers n t w) /\
    random w' = random (run_timers n t w) /\
    draws w' = draws (run_timers n t w) /\
    quota w' = quota w /\
    promise_state p w' = promise_state p w1.
Proof.
  induction n as [| n IH]; intros w w1 Hsim Hdue Htm Hp Hn.
  - destruct Hsim as (Hu & Hs & Hr & Hd & Hq & Ht).
    destruct (timers w) eqn:Htw; [| simpl in Hn; lia]. simpl in Ht.
    exists (set_clock (due tm) [] w1).
    rewrite run_timers_S, Ht. apply N.leb_le in Htm. rewrite Htm.
    rewrite (fire_cons _ _ _ Ht). done.
  - destruct (timers w) as [| t0 ts] eqn:Htw.
    + destruct Hsim as (Hu & Hs & Hr & Hd & Hq & Ht). rewrite Htw in Ht.
      simpl in Ht. exists (set_clock (due tm) [] w1).
      rewrite (run_timers_S (S n) t w1), Ht. apply N.leb_le in Htm.
      rewrite Htm, (fire_cons _ _ _ Ht).
      rewrite (run_timers_S n t (run_task _ _)), run_task_timers.
      rewrite (run_timers_S n t w), Htw. done.
    + pose proof Hsim as (_ & _ & _ & _ & Hq & Ht). rewrite Htw in Ht.
      simpl in Ht, Hn.
      apply Forall_cons in Hdue as (Hd0 & Hdue).
      apply Forall_cons in Hp as (Hp0 & Hp).
      rewrite (run_timers_S (S n) t w1), Ht.
      rewrite (run_timers_S n t w), Htw.
      apply N.leb_le in Hd0. rewrite Hd0.
      rewrite (fire_cons _ _ _ Htw), (fire_cons _ _ _ Ht).
      destruct (IH (run_task (task t0) (set_clock (due t0) ts w))
                   (run_task (task t0) (set_clock (due t0) (ts ++ [tm]) w1)))
        as (w' & Hrun & Hu' & Hs' & Hr' & Hd' & Hq' & Hp'); try done.
      * by apply run_task_same_session.
      * by rewrite run_task_timers.
      * by rewrite run_task_timers.
      * rewrite run_task_timers. simpl. lia.
      * exists w'. rewrite Hrun, Hu', Hs', Hr', Hd', Hq', Hp'.
        rewrite run_task_quota. repeat split.
        rewrite run_task_other_promise; [done |].
        unfold promise_of in Hp0. by destruct (task t0).
Qed.

(** *** What [login] leaves behind *)

Lemma login_queue e pw r w :
  well_formed w ->
  let p := (login e pw r w).1 in
  let w1 := (login e pw r w).2 in
  p = length (promises w) /\
  timers w1 = timers w ++ [{| due := now w + 500; task := LoginTimeout e pw r p |}] /\
  promises w1 = promises w ++ [Pending] /\
  user w1 = user w /\ localStorage w1 = localStorage w /\
  now w1 = now w /\ random w1 = random w /\ draws w1 = draws w /\
  quota w1 = quota w.
Proof.
  intros (_ & Hdue & _). simpl. repeat split.
  apply insert_timer_last. simpl. done.
Qed.

Lemma login_fresh e pw r w :
  well_formed w ->
  Forall (fun t' => promise_of t' <> (login e pw r w).1) (timers w) /\
  promise_state (login e pw r w).1 (login e pw r w).2 = Some Pending.
Proof.
  intros Hwf. destruct (login_queue e pw r w Hwf) as (Hp & _ & Hpr & _).
  destruct Hwf as (Hids & _). split.
  - simpl. eapply Forall_impl; [exact Hids |]. simpl. intros t' Hlt. lia.
  - unfold promise_state. rewrite Hpr. simpl.
    by rewrite lookup_app_r, Nat.sub_diag.
Qed.

Lemma login_same_session e pw r w :
  well_formed w ->
  same_session {| due := now w + 500;
                  task := LoginTimeout e pw r (login e pw r w).1 |}
               w (login e pw r w).2.
Proof.
  intros Hwf.
  destruct (login_queue e pw r w Hwf) as (_ & Ht & _ & Hu & Hs & _ & Hr & Hd & Hq).
  by repeat split.
Qed.

(** After the delay, the event loop has run the callback of a called
    [login] on a page that holds the session of the run without the
    call, and on which its promise is pending. *)
Lemma login_fires e pw r w t :
  well_formed w -> now w + 500 <= t ->
  exists w',
    run_timers (length (timers (login e pw r w).2)) t (login e pw r w).2
    = run_task (LoginTimeout e pw r (login e pw r w).1) w' /\
    user w' = user (run_until t w) /\
    localStorage w' = localStorage (run_until t w) /\
    random w' = random (run_until t w) /\
    draws w' = draws (run_until t w) /\
    quota w' = quota w /\
    promise_state (login e pw r w).1 w' = Some Pending.
Proof.
  intros Hwf Ht.
  destruct (login_queue e pw r w Hwf) as (_ & Hq & _).
  destruct (login_fresh e pw r w Hwf) as (Hfresh & Hpend).
  pose proof (login_same_session e pw r w Hwf) as Hsim.
  destruct Hwf as (_ & Hdue & _).
  assert (Hdue' : Forall (fun t' => due t' <= t) (timers w)).
  { eapply Forall_impl; [exact Hdue |]. simpl. intros; lia. }
  destruct (run_timers_lockstep t (login e pw r w).1 _ (length (timers w))
              w (login e pw r w).2 Hsim Hdue' Ht Hfresh (Nat.le_refl _))
    as (w' & Hrun & Hu & Hs & Hr & Hd & Hqu & Hp).
  exists w'. rewrite Hp, Hpend. split; [| done].
  rewrite Hq, length_app, Nat.add_1_r. exact Hrun.
Qed.

(** *** The queue stays well formed *)

Lemma well_formed_page storage rnd q : well_formed (page storage rnd q).
Proof. repeat split; simpl; constructor. Qed.

Lemma well_formed_login e pw r w :
  well_formed w -> well_formed (login e pw r w).2.
Proof.
  intros Hwf. destruct (login_queue e pw r w Hwf) as (Hp & Ht & Hpr & _ & _ & Hn & _).
  destruct Hwf as (Hids & Hdue & Hsort). unfold well_formed.
  rewrite Ht, Hpr, Hn, length_app. simpl. repeat split.
  - apply Forall_app. split.
    + eapply Forall_impl; [exact Hids |]. simpl. intros; lia.
    + repeat constructor. unfold promise_of. simpl. lia.
  - apply Forall_app. split; [done |]. repeat constructor. simpl. lia.
  - apply StronglySorted_app_2; [| done | repeat constructor].
    intros x1 x2 Hx1 ->%list_elem_of_singleton. simpl.
    by apply (proj1 (Forall_forall _ _) Hdue).
Qed.

Lemma well_formed_fire w w' :
  well_formed w -> fire w = Some w' -> well_formed w'.
Proof.
  intros (Hids & Hdue & Hsort). unfold fire.
  destruct (timers w) as [| tm rest] eqn:Ht; [done |]. intros [= <-].
  unfold well_formed.
  rewrite run_task_timers, run_task_promises_length, run_task_now. simpl.
  apply Forall_cons in Hids as (_ & Hids). apply Forall_cons in Hdue as (_ & Hdue).
  apply StronglySorted_cons in Hsort as (_ & Hsort).
  repeat split; [done | | done].
  eapply Forall_impl; [exact Hdue |]. simpl. intros; lia.
Qed.

Lemma well_formed_logout w : well_formed w -> well_formed (logout w).
Proof. done. Qed.

Lemma well_formed_restore w : well_formed w -> well_formed (restore w).
Proof.
  unfold restore, getItem. intros Hwf.
  destruct (localStorage w !! str "user") as [saved |]; [| done].
  destruct (ToBoolean (VString saved)); [| done].
  by destruct (JSON.JSON_parse saved).
Qed.

Lemma well_formed_step w w' :
  well_formed w -> store_step w w' -> well_formed w'.
Proof.
  intros Hwf Hstep. revert Hwf.
  destruct Hstep as [w e pw r | w | w w' Hf | w]; intros Hwf.
  - by apply well_formed_login.
  - by apply well_formed_logout.
  - by eapply well_formed_fire.
  - by apply well_formed_restore.
Qed.

Lemma store_reachable_well_formed w : store_reachable w -> well_formed w.
Proof.
  induction 1; eauto using well_formed_page, well_formed_step.
Qed.

End Store_facts.

(** ** The model at work *)

Module Examples.
Import JSON AuthContext.

Example split_at_sign :
  JSString.split 0x40 (str "a@b.com") = [str "a"; str "b.com"] /\
  JSString.split 0x40 (str "guest") = [str "guest"] /\
  JSString.split 0x40 (str "") = [[]].
Proof. repeat split; reflexivity. Qed.

Example str_reads_utf8 : str "ó€" = [0xF3; 0x20AC].
Proof. reflexivity. Qed.

(** A letter, a line feed and an unpaired surrogate. *)
Example QuoteJSONString_escapes :
  QuoteJSONString [0x61; 0x0A; 0xD800]
  = [0x22] ++ str "a\n\ud800" ++ [0x22].
Proof. reflexivity. Qed.

Example JSON_stringify_user :
  JSON_stringify {| id := str "k3j9x2m1q"; email := str "a@b.com";
                    name := str "a"; role := admin |}
  = str "{" ++ QuoteJSONString (str "id") ++ str ":"
            ++ QuoteJSONString (str "k3j9x2m1q") ++ str ","
            ++ QuoteJSONString (str "email") ++ str ":"
            ++ QuoteJSONString (str "a@b.com") ++ str ","
            ++ QuoteJSONString (str "name") ++ str ":"
            ++ QuoteJSONString (str "a") ++ str ","
            ++ QuoteJSONString (str "role") ++ str ":"
            ++ QuoteJSONString (str "admin") ++ str "}".
Proof. reflexivity. Qed.

Example JSON_parse_values :
  JSON_parse (str " [true, null, -12.5e3, [], {}] ")
  = Some (VArray [VBool true; VNull;
                  VNumber (NumLit true [1; 2] [5] (Some (false, [3])));
                  VArray []; VObject []]).
Proof. reflexivity. Qed.

Example JSON_parse_last_key_wins :
  JSON_parse (str "{" ++ QuoteJSONString (str "a") ++ str ":1,"
                      ++ QuoteJSONString (str "b") ++ str ":2,"
                      ++ QuoteJSONString (str "a") ++ str ":3}")
  = Some (VObject [(str "a", VNumber (NumLit false [3] [] None));
                   (str "b", VNumber (NumLit false [2] [] None))]).
Proof. reflexivity. Qed.

Example JSON_parse_rejects :
  JSON_parse (str "") = None /\
  JSON_parse (str "undefined") = None /\
  JSON_parse (str "[1,]") = None /\
  JSON_parse (str "01") = None /\
  JSON_parse (str "{} {}") = None /\
  JSON_parse (str "{id:1}") = None.
Proof. repeat split; reflexivity. Qed.

(** [1e-400] is below every double but zero, [1e-300] is not. *)
Example ToBoolean_numbers :
  ToBoolean (VNumber (NumLit false [1] [] (Some (true, [4; 0; 0])))) = false /\
  ToBoolean (VNumber (NumLit false [1] [] (Some (true, [3; 0; 0])))) = true /\
  ToBoolean (VNumber (NumLit true [0] [0] None)) = false.
Proof. repeat split; vm_compute; reflexivity. Qed.

(** The example of the specification: [login("a@b.com", "1234", "admin")]. *)
Example login_admin :
  user (run_until 500
          (login (str "a@b.com") (str "1234") admin App.sample_page).2)
  = User_value {| id := str "k3j9x2m1q"; email := str "a@b.com";
                  name := str "a"; role := admin |} /\
  promise_state 0
    (run_until 500 (login (str "a@b.com") (str "1234") admin App.sample_page).2)
  = Some (Fulfilled true).
Proof. split; reflexivity. Qed.

(** And [login("x@y.com", "abc", "investor")]. *)
Example login_short_password :
  user (run_until 500
          (login (str "x@y.com") (str "abc") investor App.sample_page).2)
  = VNull /\
  promise_state 0
    (run_until 500 (login (str "x@y.com") (str "abc") investor App.sample_page).2)
  = Some (Fulfilled false).
Proof. split; reflexivity. Qed.

(** Two logins in flight: the later one decides the session. *)
Example login_twice :
  user (run_until 500
          (login (str "b@c.org") (str "secret") investor
             (login (str "a@b.com") (str "1234") admin App.sample_page).2).2)
  = User_value {| id := str "k3j9x2m1q"; email := str "b@c.org";
                  name := str "b"; role := investor |}.
Proof. reflexivity. Qed.

(** A storage that takes no entry: the identity is in memory, nothing is
    stored and the promise of [login] stays pending. *)
Example login_storage_full :
  user (run_until 500
          (login (str "a@b.com") (str "1234") admin App.sample_full_page).2)
  = User_value {| id := str "k3j9x2m1q"; email := str "a@b.com";
                  name := str "a"; role := admin |} /\
  getItem (str "user")
    (run_until 500
       (login (str "a@b.com") (str "1234") admin App.sample_full_page).2)
  = None /\
  promise_state 0
    (run_until 500
       (login (str "a@b.com") (str "1234") admin App.sample_full_page).2)
  = Some Pending.
Proof. repeat split; reflexivity. Qed.

(** A storage that takes the entry only while it holds none: the second
    [login] installs its identity over the entry of the first. *)
Example login_second_write_refused :
  let first_only : gmap jsstring jsstring -> jsstring -> jsstring -> bool :=
    fun storage k _ => match storage !! k with Some _ => false | None => true end in
  let w1 := run_until 500
              (login (str "a@b.com") (str "1234") admin
                 (mount ∅ App.sample_random first_only)).2 in
  let w2 := run_until 1000 (login (str "b@c.org") (str "secret") investor w1).2 in
  user w2 = User_value {| id := str "k3j9x2m1q"; email := str "b@c.org";
                          name := str "b"; role := investor |} /\
  getItem (str "user") w2
  = Some (JSON_stringify {| id := str "k3j9x2m1q"; email := str "a@b.com";
                            name := str "a"; role := admin |}) /\
  promise_state 0 w2 = Some (Fulfilled true) /\
  promise_state 1 w2 = Some Pending.
Proof. repeat split; reflexivity. Qed.

End Examples.

(** ** The claims on the session store *)

Module Session.
Import AuthContext App Store_facts.




(** C2. A password of fewer than four units: the promise of [login] is
    resolved with [false]; neither the call nor its callback touches the
    identity in memory or the storage, so that the session is what it
    would be had [login] not been called, and what it was before the
    call when no other timer was queued. *)
Theorem login_rejects w e pw r t :
  well_formed w -> (length pw < 4)%nat -> now w + 500 <= t ->
  let p := (login e pw r w).1 in
  let w1 := (login e pw r w).2 in
  user w1 = user w /\ localStorage w1 = localStorage w /\
  promise_state p (run_until t w1) = Some (Fulfilled false) /\
  user (run_until t w1) = user (run_until t w) /\
  localStorage (run_until t w1) = localStorage (run_until t w) /\
  (timers w = [] ->
   user (run_until t w1) = user w /\
   localStorage (run_until t w1) = localStorage w).
Proof.
  intros Hwf Hpw Ht p w1.
  destruct (login_queue e pw r w Hwf) as (_ & _ & _ & Hu & Hs & _).
  destruct (login_fires e pw r w t Hwf Ht)
    as (w' & Hrun & Hu' & Hs' & _ & _ & _ & Hpend).
  assert (Hend : promise_state p (run_until t w1) = Some (Fulfilled false) /\
                 user (run_until t w1) = user (run_until t w) /\
                 localStorage (run_until t w1) = localStorage (run_until t w)).
  { unfold run_until at 1 2 4.
    change (promise_state ?q (set_clock ?a ?b ?x)) with (promise_state q x).
    change (user (set_clock ?a ?b ?x)) with (user x).
    change (localStorage (set_clock ?a ?b ?x)) with (localStorage x).
    subst w1 p. rewrite Hrun, run_task_rejects by done.
    unfold promise_state in *. cbn [user localStorage promises resolve].
    by rewrite list_lookup_alter_eq, Hpend, Hu', Hs'. }
  destruct Hend as (Hp & Hsu & Hss).
  repeat split; try done.
  - rewrite Hsu. unfold run_until. by rewrite H.
  - rewrite Hss. unfold run_until. by rewrite H.
Qed.

Lemma login_rejects_witness :
  user (login (str "x@y.com") (str "abc") investor sample_page).2
  = user sample_page /\
  localStorage (login (str "x@y.com") (str "abc") investor sample_page).2
  = localStorage sample_page /\
  promise_state 0
    (run_until 500 (login (str "x@y.com") (str "abc") investor sample_page).2)
  = Some (Fulfilled false) /\
  user (run_until 500 (login (str "x@y.com") (str "abc") investor sample_page).2)
  = user (run_until 500 sample_page) /\
  localStorage
    (run_until 500 (login (str "x@y.com") (str "abc") investor sample_page).2)
  = localStorage (run_until 500 sample_page) /\
  (timers sample_page = [] ->
   user (run_until 500 (login (str "x@y.com") (str "abc") investor sample_page).2)
   = user sample_page /\
   localStorage
     (run_until 500 (login (str "x@y.com") (str "abc") investor sample_page).2)
   = localStorage sample_page).
Proof.
  apply (login_rejects sample_page (str "x@y.com") (str "abc") investor 500).
  - apply well_formed_page.
  - vm_compute. lia.
  - vm_compute. discriminate.
Defined.

(** C9. The code breaks it: when [setItem] throws, the callback of an
    accepted [login] ends before [resolve]. On a page whose storage takes
    no write of the entry, a [login] with a password of four units or
    more has its identity in memory once the delay has passed, nothing
    of it in storage, and a promise that is pending then and at every
    later time. *)
Theorem login_hangs_when_storage_refuses w e pw r t :
  well_formed w -> (4 <= length pw)%nat -> now w + 500 <= t ->
  (forall st v, quota w st (str "user") v = false) ->
  let p := (login e pw r w).1 in
  let w2 := run_until t (login e pw r w).2 in
  promise_state p w2 = Some Pending /\
  (exists u, user w2 = User_value u /\ email u = e /\ role u = r) /\
  localStorage w2 = localStorage (run_until t w).
Proof.
  intros Hwf Hpw Ht Hfull p w2.
  destruct (login_fires e pw r w t Hwf Ht)
    as (w' & Hrun & _ & Hs' & _ & _ & Hq' & Hpend).
  subst w2 p. unfold run_until at 1 2 3.
  change (promise_state ?q (set_clock ?a ?b ?x)) with (promise_state q x).
  change (user (set_clock ?a ?b ?x)) with (user x).
  change (localStorage (set_clock ?a ?b ?x)) with (localStorage x).
  rewrite Hrun.
  assert (Hno : quota w' (localStorage w') (str "user")
                  (JSON_stringify (new_identity e r w')) = false)
    by (rewrite Hq'; apply Hfull).
  destruct (run_task_refused e pw r (login e pw r w).1 w' Hpw Hno) as (Hst & Hpr).
  split; [| split].
  - unfold promise_state in *. by rewrite Hpr.
  - exists (new_identity e r w'). split; [by apply run_task_user | done].
  - by rewrite Hst.
Qed.

(** [login("a@b.com", "1234", "admin")] on a storage that is full, a day
    after the call. *)
Lemma login_hangs_when_storage_refuses_witness :
  promise_state 0
    (run_until 86400000
       (login (str "a@b.com") (str "1234") admin sample_full_page).2)
  = Some Pending /\
  (exists u,
     user (run_until 86400000
             (login (str "a@b.com") (str "1234") admin sample_full_page).2)
     = User_value u /\
     email u = str "a@b.com" /\ role u = admin) /\
  localStorage
    (run_until 86400000
       (login (str "a@b.com") (str "1234") admin sample_full_page).2)
  = localStorage (run_until 86400000 sample_full_page).
Proof.
  apply (login_hangs_when_storage_refuses sample_full_page (str "a@b.com")
           (str "1234") admin 86400000).
  - apply well_formed_page.
  - vm_compute. lia.
  - vm_compute. discriminate.
  - intros st v. reflexivity.
Defined.

(** C5. From every state, [logout] leaves no identity in memory and no
    entry under ["user"] in storage, and no other entry changed; it is a
    total function. *)
Theorem logout_clears w :
  user (logout w) = VNull /\
  isAuthenticated (value (logout w)) = false /\
  getItem (str "user") (logout w) = None /\
  (forall k, k <> str "user" -> getItem k (logout w) = getItem k w).
Proof.
  unfold logout, getItem. simpl. repeat split.
  - apply lookup_delete_eq.
  - intros k Hk. by apply lookup_delete_ne.
Qed.

(** C6. A page loaded over the entry that [login] stores for an identity
    starts with that same identity in memory, authenticated, and the
    entry is kept. *)
Theorem restore_stored_identity (u : User) storage rnd q :
  let w := mount (<[str "user" := JSON_stringify u]> storage) rnd q in
  user w = User_value u /\
  isAuthenticated (value w) = true /\
  localStorage w = <[str "user" := JSON_stringify u]> storage.
Proof.
  unfold mount, restore, getItem. cbn [localStorage page].
  rewrite lookup_insert_eq.
  replace (ToBoolean (VString (JSON_stringify u))) with true by reflexivity.
  rewrite JSON_facts.JSON_parse_stringify. done.
Qed.

(** C7, as amended. A page loaded over an entry that [JSON.parse]
    rejects starts with no identity, unauthenticated; the entry is
    removed, or left alone when it is the empty string, which the effect
    does not even try to parse. *)
Theorem restore_discards_malformed storage rnd q saved :
  storage !! str "user" = Some saved ->
  JSON.JSON_parse saved = None ->
  let w := mount storage rnd q in
  user w = VNull /\
  isAuthenticated (value w) = false /\
  (localStorage w = delete (str "user") storage \/
   saved = [] /\ localStorage w = storage).
Proof.
  intros Hsaved Hbad. unfold mount, restore, getItem. cbn [localStorage page].
  rewrite Hsaved. destruct saved as [| c s]; simpl.
  - auto.
  - rewrite Hbad. simpl. auto.
Qed.

Lemma restore_discards_malformed_witness :
  user (mount {[ str "user" := str "undefined" ]} sample_random unlimited) = VNull /\
  isAuthenticated (value (mount {[ str "user" := str "undefined" ]} sample_random unlimited))
  = false /\
  (localStorage (mount {[ str "user" := str "undefined" ]} sample_random unlimited)
   = delete (str "user") {[ str "user" := str "undefined" ]} \/
   str "undefined" = [] /\
   localStorage (mount {[ str "user" := str "undefined" ]} sample_random unlimited)
   = {[ str "user" := str "undefined" ]}).
Proof.
  apply (restore_discards_malformed _ sample_random unlimited (str "undefined")).
  - apply lookup_singleton_eq.
  - vm_compute. reflexivity.
Defined.

(** C8. [useAuth] throws when no [AuthProvider] encloses the caller, and
    only then: under a provider it returns the value provided. *)
Theorem useAuth_throws_outside_provider :
  useAuth [] = Throw (str "useAuth debe ser usado dentro de un AuthProvider") /\
  (forall w scope, useAuth (value w :: scope) = Return (value w)) /\
  (forall scope, (exists m, useAuth scope = Throw m) <-> scope = []).
Proof.
  split; [done |]. split; [done |].
  intros [| c scope]; split.
  - done.
  - intros _. by eexists.
  - by intros (m & Hm).
  - done.
Qed.



Lemma Forall_insert_timer (P : Timer -> Prop) t ts :
  P t -> Forall P ts -> Forall P (insert_timer t ts).
Proof.
  intros Ht. induction 1 as [| t' ts Ht' Hts IH]; simpl.
  - by repeat constructor.
  - destruct (due t' <=? due t); by repeat constructor.
Qed.

Lemma identity_ok_User_value u : email u <> [] -> identity_ok (User_value u).
Proof. intros He. right. exists (email u), (role u). by destruct u. Qed.

Lemma session_invariant_mount_empty rnd q :
  session_invariant (mount ∅ rnd q).
Proof. unfold session_invariant. simpl. repeat split; auto. Qed.

Lemma session_invariant_submit e pw r w :
  session_invariant w -> session_invariant (Login.handleSubmit e pw r w).2.
Proof.
  intros (Hu & Hs & Ht). unfold Login.handleSubmit.
  destruct e as [| c e']; [done |]. simpl.
  destruct (negb _); [done |].
  destruct (length pw <? 4)%nat; [done |].
  repeat split; [done | done |]. simpl.
  apply Forall_insert_timer; done.
Qed.

Lemma session_invariant_logout w :
  session_invariant w -> session_invariant (logout w).
Proof.
  intros (_ & _ & Ht). repeat split; [by left | left | done].
  unfold logout, getItem. simpl. apply lookup_delete_eq.
Qed.

Lemma session_invariant_fire w w' :
  session_invariant w -> fire w = Some w' -> session_invariant w'.
Proof.
  intros (Hu & Hs & Ht). unfold fire.
  destruct (timers w) as [| tm rest] eqn:Hq; [done |]. intros [= <-].
  apply Forall_cons in Ht as (Htm & Ht).
  unfold task_email in Htm. destruct (task tm) as [e pw r p].
  unfold session_invariant. rewrite run_task_timers. cbn [timers set_clock].
  split; [| split; [| done]].
  - destruct (Nat.leb_spec 4 (length pw)) as [Hpw | Hpw].
    + rewrite run_task_user by done. right. eexists. split; [reflexivity | done].
    + by rewrite run_task_rejects.
  - unfold getItem.
    destruct (Nat.leb_spec 4 (length pw)) as [Hpw | Hpw];
      [| by rewrite run_task_rejects].
    match goal with
    | |- context [run_task ?T ?w0] =>
      destruct (quota w0 (localStorage w0) (str "user")
                  (JSON_stringify (new_identity e r w0))) eqn:Hok;
      [ destruct (run_task_stored e pw r p w0 Hpw Hok) as (-> & _)
      | destruct (run_task_refused e pw r p w0 Hpw Hok) as (-> & _) ]
    end.
    + right. eexists. split; [apply lookup_insert_eq | done].
    + done.
Qed.

Lemma session_invariant_reload w rnd q :
  session_invariant w -> session_invariant (mount (localStorage w) rnd q).
Proof.
  intros (_ & Hs & _). unfold mount, restore, getItem in *. cbn [localStorage page].
  destruct Hs as [Hn | (u & Hsome & He)].
  - rewrite Hn. unfold session_invariant, getItem. cbn [user localStorage timers page]. auto.
  - rewrite Hsome. replace (ToBoolean (VString (JSON_stringify u))) with true by reflexivity.
    rewrite JSON_facts.JSON_parse_stringify.
    unfold session_invariant, getItem. cbn [user localStorage timers page setUser].
    repeat split; [right | right | constructor]; eauto.
Qed.

Lemma reachable_session_invariant w : reachable w -> session_invariant w.
Proof.
  induction 1 as [rnd q | w w' _ IH Hstep]; [apply session_invariant_mount_empty |].
  revert IH. destruct Hstep as [w e pw r | w | w w' Hf | w rnd]; intros IH.
  - by apply session_invariant_submit.
  - by apply session_invariant_logout.
  - by eapply session_invariant_fire.
  - by apply session_invariant_reload.
Qed.

(** The pages of the application are pages of the store. *)
Lemma reachable_store_reachable w : reachable w -> store_reachable w.
Proof.
  induction 1 as [rnd q | w w' _ IH Hstep].
  - eapply store_reachable_step; [apply (store_reachable_start ∅ rnd q) |].
    apply store_restore.
  - revert IH. destruct Hstep as [w e pw r | w | w w' Hf | w rnd]; intros IH.
    + unfold Login.handleSubmit.
      destruct (negb _ || negb _); [done |].
      destruct (length pw <? 4)%nat; [done |].
      eapply store_reachable_step; [exact IH | apply store_login].
    + eapply store_reachable_step; [exact IH | apply store_logout].
    + eapply store_reachable_step; [exact IH | by apply store_fire].
    + eapply store_reachable_step;
        [apply (store_reachable_start (localStorage w) rnd (quota w)) |].
      apply store_restore.
Qed.

(** C3, as amended. In every state a browser reaches from an empty
    storage through the login form, [logout], the firing of timers and
    reloads, the identity in memory, when there is one, has an email that
    is not empty and one of the two role names for role. *)
Theorem reachable_identity_ok w : reachable w -> identity_ok (user w).
Proof.
  intros (Hu & _)%reachable_session_invariant.
  destruct Hu as [-> | (u & -> & He)]; [by left |].
  by apply identity_ok_User_value.
Qed.

Lemma reachable_identity_ok_witness :
  identity_ok
    (user (run_task (LoginTimeout (str "a@b.com") (str "1234") admin 0)
             (set_clock 500 []
                (Login.handleSubmit (str "a@b.com") (str "1234") admin sample_page).2))).
Proof.
  apply (reachable_identity_ok
           (run_task (LoginTimeout (str "a@b.com") (str "1234") admin 0)
              (set_clock 500 []
                 (Login.handleSubmit (str "a@b.com") (str "1234") admin
                    sample_page).2))).
  eapply reachable_step; [eapply reachable_step; [apply reachable_start |] |].
  - apply (step_submit _ (str "a@b.com") (str "1234") admin).
  - apply step_fire. reflexivity.
Defined.

(** C3 as stated fails: [login] itself takes an empty email. Called with
    one on a fresh page, it leaves a state that satisfies the invariant
    and from which the firing of its timer installs an identity whose
    email is empty. *)
Lemma login_installs_empty_email :
  store_reachable (login [] (str "1234") admin sample_page).2 /\
  identity_ok (user (login [] (str "1234") admin sample_page).2) /\
  exists w',
    store_step (login [] (str "1234") admin sample_page).2 w' /\
    ~ identity_ok (user w').
Proof.
  split; [| split; [by left |]].
  - eapply store_reachable_step;
      [apply (store_reachable_start ∅ sample_random unlimited) |].
    apply store_login.
  - eexists. split; [apply store_fire; reflexivity |].
    intros [Hnull | (e & r & He & Hne & _)]; [discriminate Hnull |].
    vm_compute in He. congruence.
Qed.

(** C7 as stated fails: a stored value that is no identity is installed
    all the same when it parses. Over the entry [{}] the page starts with
    that object as [user], authenticated, and without email or role. *)
Lemma restore_installs_unchecked :
  user (mount {[ str "user" := str "{}" ]} sample_random unlimited)
  = VObject [] /\
  isAuthenticated
    (value (mount {[ str "user" := str "{}" ]} sample_random unlimited))
  = true /\
  ~ identity_ok
      (user (mount {[ str "user" := str "{}" ]} sample_random unlimited)).
Proof.
  assert (H : user (mount {[ str "user" := str "{}" ]} sample_random unlimited)
              = VObject []).
  { unfold mount, restore, getItem. cbn [localStorage page].
    rewrite lookup_singleton_eq. reflexivity. }
  unfold value. cbn [isAuthenticated]. rewrite H. split; [done |]. split; [done |].
  intros [Hnull | (e & r & He & _)]; discriminate.
Qed.

End Session.

(** ** The claims on the dashboard *)

Module Dashboard_facts.
Import AuthContext Dashboard.

Section Page.

Variable number : Type.
Variable number_gt : number -> number -> bool.
Variable number_sub : number -> number -> number.
Variable Math_abs : number -> number.
Variable number_19_9 number_45_5 : number.
Variable number_toString : number -> jsstring.
Variable toFixed : number -> nat -> jsstring.
Variable formatCurrency formatPercentage : number -> jsstring.

Local Abbreviation Dashboard :=
  (Dashboard number number_gt number_sub Math_abs number_19_9 number_45_5
             number_toString toFixed formatCurrency formatPercentage).
Local Abbreviation InvestorView :=
  (InvestorView number number_gt number_sub Math_abs number_19_9 number_45_5
                formatCurrency formatPercentage).
Local Abbreviation AdminView :=
  (AdminView number number_gt number_toString toFixed formatCurrency
             formatPercentage).
Local Abbreviation headlines := (headlines number).
Local Abbreviation cards := (cards number).
Local Abbreviation charts := (charts number).

Lemma optional_role_User_value u :
  optional_role (User_value u) = VString (Role_string (role u)).
Proof. by destruct u. Qed.

Lemma Dashboard_investor i e n kpiData :
  Dashboard (User_value {| id := i; email := e; name := n; role := investor |})
            kpiData
  = InvestorView kpiData.
Proof. reflexivity. Qed.

Lemma Dashboard_admin i e n kpiData :
  Dashboard (User_value {| id := i; email := e; name := n; role := admin |})
            kpiData
  = AdminView kpiData.
Proof. reflexivity. Qed.

Lemma Dashboard_two_views user kpiData :
  Dashboard user kpiData = InvestorView kpiData \/
  Dashboard user kpiData = AdminView kpiData.
Proof.
  unfold Dashboard.Dashboard.
  destruct (strict_equals (optional_role user) (str "investor")); auto.
Qed.

(** C4. For an identity whose role is [investor] the page is the
    investor view: its headline, four KPI cards bound to RevPAR, net
    profit, average occupancy and total sales, and two charts. For one
    whose role is [admin] it is the administrator view: its headline, ten
    KPI cards and five charts. Whatever value [user] holds, the page is
    one of these two. *)
Theorem Dashboard_selects_by_role i e n (kpiData : KPIData number) :
  (headlines
     (Dashboard (User_value {| id := i; email := e; name := n; role := investor |})
                kpiData)
   = [str "Dashboard de Inversionista"] /\
   map (fun c => (title c, value c))
     (cards
        (Dashboard (User_value {| id := i; email := e; name := n; role := investor |})
                   kpiData))
   = [(str "RevPAR", formatCurrency (revPAR number kpiData));
      (str "Ganancia Neta", formatCurrency (profitMargin number kpiData));
      (str "Ocupación Promedio", formatPercentage (avgOccupancyRate number kpiData));
      (str "Ventas Totales", formatCurrency (totalRevenue number kpiData))] /\
   charts
     (Dashboard (User_value {| id := i; email := e; name := n; role := investor |})
                kpiData)
   = [str "Tendencia de RevPAR"; str "Distribución por Propiedad"]) /\
  (headlines
     (Dashboard (User_value {| id := i; email := e; name := n; role := admin |})
                kpiData)
   = [str "Dashboard Administrativo"] /\
   map title
     (cards
        (Dashboard (User_value {| id := i; email := e; name := n; role := admin |})
                   kpiData))
   = [str "% Ocupación"; str "Ventas"; str "ADR"; str "RevPAR";
      str "Presupuesto a hoy"; str "Forecast de ventas";
      str "Tarifa promedio (Per)";
      str "Gastos y costos"; str "Utilidad/Perdida"; str "FARA"] /\
   charts
     (Dashboard (User_value {| id := i; email := e; name := n; role := admin |})
                kpiData)
   = [str "Total ventas"; str "Evolución tasa de ocupación";
      str "Evolución tarifa promedio"; str "Evolución RevPAR";
      str "Propiedad - Comparación de Ratings"]) /\
  (forall user : jsval,
     Dashboard user kpiData
     = Dashboard (User_value {| id := i; email := e; name := n; role := investor |})
                 kpiData \/
     Dashboard user kpiData
     = Dashboard (User_value {| id := i; email := e; name := n; role := admin |})
                 kpiData).
Proof.
  rewrite Dashboard_investor, Dashboard_admin.
  split; [| split].
  - repeat split; reflexivity.
  - repeat split; reflexivity.
  - intros user. apply Dashboard_two_views.
Qed.

(** C10. With no identity ([user] is [null]) the page is the
    administrator view: it is what every [user] gets whose role does not
    compare equal to ['investor']. *)
Theorem Dashboard_without_identity i e n (kpiData : KPIData number) :
  Dashboard VNull kpiData
  = Dashboard (User_value {| id := i; email := e; name := n; role := admin |})
              kpiData /\
  headlines (Dashboard VNull kpiData) = [str "Dashboard Administrativo"] /\
  length (cards (Dashboard VNull kpiData)) = 10%nat /\
  (forall user : jsval,
     Dashboard user kpiData
     = if strict_equals (optional_role user) (str "investor")
       then Dashboard
              (User_value {| id := i; email := e; name := n; role := investor |})
              kpiData
       else Dashboard VNull kpiData).
Proof.
  rewrite Dashboard_admin, Dashboard_investor. repeat split.
Qed.

End Page.

End Dashboard_facts.

(** ** More of the login form, the store and the dashboard *)

Module Coverage.
Import AuthContext App Login LoginPage Store_facts.

(** *** The login form *)

Lemma handleSubmit_cases e pw r w :
  (e = [] \/ (length pw < 4)%nat) /\
  (handleSubmit e pw r w).1.2 = None /\ (handleSubmit e pw r w).2 = w /\
  (exists m, (handleSubmit e pw r w).1.1 = [toast_error m]) \/
  e <> [] /\ (4 <= length pw)%nat /\
  handleSubmit e pw r w
  = ([setIsLoading true], Some (login e pw r w).1, (login e pw r w).2).
Proof.
  unfold handleSubmit.
  destruct e as [| c e']; [left; simpl; eauto 10 |].
  destruct pw as [| c1 pw']; [left; simpl; split; [right; lia | eauto] |].
  cbn [ToBoolean negb orb].
  destruct (Nat.ltb_spec (length (c1 :: pw')) 4) as [Hlt | Hge].
  - left. split; [by right |]. simpl. eauto.
  - right. split; [done |]. split; [done |]. reflexivity.
Qed.

(** X1. [handleSubmit] calls [login] exactly when the email is not empty
    and the password has four units or more: it then shows the page as
    loading and waits for the promise of that call, on the page the call
    leaves. An empty email or an empty password gets the message that
    asks for all fields, a password of one to three units the message on
    its length, and the page stays as it was. *)
Theorem handleSubmit_validates e pw r w :
  (e <> [] -> (4 <= length pw)%nat ->
   handleSubmit e pw r w
   = ([setIsLoading true], Some (login e pw r w).1, (login e pw r w).2)) /\
  (e = [] \/ pw = [] ->
   handleSubmit e pw r w
   = ([toast_error (str "Por favor completa todos los campos")], None, w)) /\
  (e <> [] -> (0 < length pw < 4)%nat ->
   handleSubmit e pw r w
   = ([toast_error (str "La contraseña debe tener al menos 4 caracteres")],
      None, w)).
Proof.
  split; [| split].
  - intros He Hpw.
    destruct (handleSubmit_cases e pw r w)
      as [([? | ?] & _) | (_ & _ & Heq)]; [contradiction | lia | exact Heq].
  - unfold handleSubmit. intros [-> | ->]; [reflexivity |].
    destruct e; reflexivity.
  - intros He [Hpos Hlt]. unfold handleSubmit.
    destruct e as [| c e']; [contradiction |].
    destruct pw as [| c1 pw']; [simpl in Hpos; lia |].
    cbn [ToBoolean negb orb].
    destruct (Nat.ltb_spec (length (c1 :: pw')) 4) as [_ | Hge];
      [reflexivity | lia].
Qed.

(** X2. A [login] that the form lets through is never turned down: once
    the delay has passed its identity is in memory and its promise is
    pending or resolved with [true], so that [handleSubmit] goes on with
    the success toast and the navigation to the dashboard or not at all;
    it does go on when the storage takes the entry. *)
Theorem handleSubmit_login_never_refused w e pw r p t :
  well_formed w -> (handleSubmit e pw r w).1.2 = Some p -> now w + 500 <= t ->
  exists settled u,
    promise_state p (run_until t (handleSubmit e pw r w).2) = Some settled /\
    user (run_until t (handleSubmit e pw r w).2) = User_value u /\
    email u = e /\
    (handleSubmit_resume settled = [] \/
     handleSubmit_resume settled
     = [toast_success (str "¡Inicio de sesión exitoso!"); navigate (str "/");
        setIsLoading false]) /\
    (quota w (localStorage (run_until t w)) (str "user") (JSON_stringify u)
     = true ->
     handleSubmit_resume settled
     = [toast_success (str "¡Inicio de sesión exitoso!"); navigate (str "/");
        setIsLoading false]).
Proof.
  intros Hwf Hp Ht.
  destruct (handleSubmit_cases e pw r w)
    as [(_ & Hn & _) | (He & Hpw & Heq)]; [congruence |].
  rewrite Heq in Hp |- *. cbn [fst snd] in Hp |- *.
  assert (Hpp : p = (login e pw r w).1) by congruence. subst p. clear Hp.
  destruct (login_fires e pw r w t Hwf Ht)
    as (w' & Hrun & _ & Hs' & _ & _ & Hq' & Hpend).
  unfold run_until at 1 2.
  change (promise_state ?q (set_clock ?a ?b ?x)) with (promise_state q x).
  change (user (set_clock ?a ?b ?x)) with (user x).
  rewrite Hrun, <- Hq', <- Hs'.
  destruct (quota w' (localStorage w') (str "user")
              (JSON_stringify (new_identity e r w'))) eqn:Hok.
  - exists (Fulfilled true), (new_identity e r w').
    destruct (run_task_stored e pw r (login e pw r w).1 w' Hpw Hok) as (_ & Hpr).
    unfold promise_state in *. rewrite Hpr, list_lookup_alter_eq, Hpend.
    split; [done |]. split; [by apply run_task_user |]. auto.
  - exists Pending, (new_identity e r w').
    destruct (run_task_refused e pw r (login e pw r w).1 w' Hpw Hok) as (_ & Hpr).
    unfold promise_state in *. rewrite Hpr, Hpend.
    split; [done |]. split; [by apply run_task_user |].
    split; [done |]. split; [by left |]. rewrite Hok. discriminate.
Qed.

Lemma handleSubmit_login_never_refused_witness :
  exists settled u,
    promise_state 0
      (run_until 500 (handleSubmit (str "a@b.com") (str "1234") admin sample_page).2)
    = Some settled /\
    user
      (run_until 500 (handleSubmit (str "a@b.com") (str "1234") admin sample_page).2)
    = User_value u /\
    email u = str "a@b.com" /\
    handleSubmit_resume settled
    = [toast_success (str "¡Inicio de sesión exitoso!"); navigate (str "/");
       setIsLoading false].
Proof.
  destruct (handleSubmit_login_never_refused sample_page (str "a@b.com")
              (str "1234") admin 0 500)
    as (settled & u & Hp & Hu & He & _ & Hok).
  - apply well_formed_page.
  - reflexivity.
  - vm_compute. discriminate.
  - exists settled, u. split; [exact Hp |]. split; [exact Hu |].
    split; [exact He |]. apply Hok. reflexivity.
Defined.

(** *** The session store *)

(** X3. [logout] does not call off a [login] that is pending: the page
    is logged out at once, and when the timer of an accepted [login]
    fires afterwards the page is authenticated again, with the identity
    of that [login] in memory, and in storage when the storage takes the
    entry. *)
Theorem logout_keeps_pending_login w e pw r t :
  well_formed w -> (4 <= length pw)%nat -> now w + 500 <= t ->
  user (logout (login e pw r w).2) = VNull /\
  exists u,
    user (run_until t (logout (login e pw r w).2)) = User_value u /\
    isAuthenticated (value (run_until t (logout (login e pw r w).2))) = true /\
    email u = e /\ role u = r /\
    (quota w (localStorage (run_until t (logout w))) (str "user")
       (JSON_stringify u) = true ->
     getItem (str "user") (run_until t (logout (login e pw r w).2))
     = Some (JSON_stringify u)).
Proof.
  intros Hwf Hpw Ht. split; [done |].
  destruct (login_queue e pw r w Hwf) as (_ & Hq & _).
  destruct (login_fresh e pw r w Hwf) as (Hfresh & Hpend).
  destruct (login_same_session e pw r w Hwf) as (Hu & Hs & Hr & Hd & Hqu & Htm).
  assert (Hsim : same_session
                   {| due := now w + 500;
                      task := LoginTimeout e pw r (login e pw r w).1 |}
                   (logout w) (logout (login e pw r w).2)).
  { unfold same_session, logout, removeItem, setUser.
    cbn [user localStorage random draws quota timers].
    by rewrite Hs, Hr, Hd, Hqu, Htm. }
  destruct Hwf as (_ & Hdue & _).
  assert (Hdue' : Forall (fun t' => due t' <= t) (timers (logout w))).
  { eapply Forall_impl; [exact Hdue |]. simpl. intros; lia. }
  destruct (run_timers_lockstep t (login e pw r w).1 _ (length (timers w))
              (logout w) (logout (login e pw r w).2) Hsim Hdue' Ht Hfresh
              (Nat.le_refl _))
    as (w' & Hrun & _ & Hs' & _ & _ & Hq' & _).
  exists (new_identity e r w'). unfold run_until at 1 2 4.
  replace (length (timers (logout (login e pw r w).2)))
    with (S (length (timers w)))
    by (change (timers (logout ?x)) with (timers x);
        rewrite Hq, length_app, Nat.add_1_r; done).
  rewrite Hrun. cbn [task].
  unfold value. cbn [isAuthenticated]. unfold getItem.
  change (user (set_clock ?a ?b ?x)) with (user x).
  change (localStorage (set_clock ?a ?b ?x)) with (localStorage x).
  rewrite run_task_user by done.
  split; [done |]. split; [done |]. split; [done |]. split; [done |].
  change (quota (logout w)) with (quota w) in Hq'.
  change (localStorage (run_until t (logout w)))
    with (localStorage (run_timers (length (timers w)) t (logout w))).
  rewrite <- Hq', <- Hs'. intros Hok.
  destruct (run_task_stored e pw r (login e pw r w).1 w' Hpw Hok) as (-> & _).
  apply lookup_insert_eq.
Qed.

Lemma logout_keeps_pending_login_witness :
  user (logout (login (str "a@b.com") (str "1234") admin sample_page).2) = VNull /\
  exists u,
    user (run_until 500
            (logout (login (str "a@b.com") (str "1234") admin sample_page).2))
    = User_value u /\
    isAuthenticated
      (value (run_until 500
                (logout (login (str "a@b.com") (str "1234") admin sample_page).2)))
    = true /\
    email u = str "a@b.com" /\ role u = admin /\
    getItem (str "user")
      (run_until 500
         (logout (login (str "a@b.com") (str "1234") admin sample_page).2))
    = Some (JSON_stringify u).
Proof.
  destruct (logout_keeps_pending_login sample_page (str "a@b.com") (str "1234")
              admin 500)
    as (Hout & u & Hu & Ha & He & Hr & Hst).
  - apply well_formed_page.
  - vm_compute. lia.
  - vm_compute. discriminate.
  - split; [exact Hout |]. exists u. split; [exact Hu |]. split; [exact Ha |].
    split; [exact He |]. split; [exact Hr |]. apply Hst. reflexivity.
Defined.

(** X4. Running the mount effect a second time changes nothing. *)
Theorem restore_idempotent w : restore (restore w) = restore w.
Proof.
  unfold restore at 2 3. unfold getItem.
  destruct (localStorage w !! str "user") as [saved |] eqn:Hs.
  - destruct (ToBoolean (VString saved)) eqn:Ht.
    + destruct (JSON.JSON_parse saved) as [v |] eqn:Hp.
      * unfold restore, getItem. cbn [localStorage setUser].
        rewrite Hs, Ht, Hp. reflexivity.
      * unfold restore, getItem. cbn [localStorage removeItem console_error].
        rewrite lookup_delete_eq. reflexivity.
    + unfold restore, getItem. by rewrite Hs, Ht.
  - unfold restore, getItem. by rewrite Hs.
Qed.

(** X5. Whatever the stored text parses to is installed as [user]
    without any check: the page is authenticated exactly when that value
    is truthy, and the entry stays in storage. *)
Theorem restore_installs_parsed storage rnd q saved v :
  storage !! str "user" = Some saved ->
  JSON.JSON_parse saved = Some v ->
  user (mount storage rnd q) = v /\
  isAuthenticated (value (mount storage rnd q)) = ToBoolean v /\
  localStorage (mount storage rnd q) = storage.
Proof.
  intros Hs Hp. unfold mount, restore, getItem. cbn [localStorage page].
  rewrite Hs. destruct saved as [| c s]; [discriminate Hp |].
  cbn [ToBoolean]. rewrite Hp. done.
Qed.

Lemma restore_installs_parsed_witness :
  user (mount {[ str "user" := str "[]" ]} sample_random unlimited) = VArray [] /\
  isAuthenticated (value (mount {[ str "user" := str "[]" ]} sample_random unlimited))
  = true /\
  localStorage (mount {[ str "user" := str "[]" ]} sample_random unlimited)
  = {[ str "user" := str "[]" ]}.
Proof.
  apply (restore_installs_parsed _ sample_random unlimited (str "[]") (VArray [])).
  - apply lookup_singleton_eq.
  - reflexivity.
Defined.

Lemma store_step_frame w w' k :
  store_step w w' -> k <> str "user" -> getItem k w' = getItem k w.
Proof.
  intros Hstep Hk. unfold getItem.
  destruct Hstep as [w e pw r | w | w w' Hf | w].
  - done.
  - simpl. by apply lookup_delete_ne.
  - unfold fire in Hf. destruct (timers w) as [| tm rest]; [done |].
    injection Hf as <-. destruct (task tm) as [e pw r p].
    unfold set_clock. run_task_unfold.
    repeat case_match; simplify_eq; simpl; by rewrite ?lookup_insert_ne.
  - unfold restore, getItem.
    destruct (localStorage w !! str "user") as [saved |]; [| done].
    destruct (ToBoolean (VString saved)); [| done].
    destruct (JSON.JSON_parse saved); [done |].
    simpl. by apply lookup_delete_ne.
Qed.

(** X6. The store writes to no entry of [localStorage] but ["user"]:
    through any sequence of [login], [logout], the mount effect and
    firing timers every other key reads as before. *)
Theorem store_touches_only_user_entry w w' k :
  rtc store_step w w' -> k <> str "user" -> getItem k w' = getItem k w.
Proof.
  intros Hsteps Hk. induction Hsteps as [| w w1 w2 Hstep _ IH]; [done |].
  rewrite IH. by apply store_step_frame.
Qed.

Lemma store_touches_only_user_entry_witness :
  getItem (str "theme")
    (run_task (LoginTimeout (str "a@b.com") (str "1234") admin 0)
       (set_clock 500 []
          (login (str "a@b.com") (str "1234") admin
             (page {[ str "theme" := str "dark" ]} sample_random unlimited)).2))
  = getItem (str "theme") (page {[ str "theme" := str "dark" ]} sample_random unlimited).
Proof.
  apply (store_touches_only_user_entry
           (page {[ str "theme" := str "dark" ]} sample_random unlimited)).
  - eapply rtc_l; [apply (store_login _ (str "a@b.com") (str "1234") admin) |].
    eapply rtc_l; [apply store_fire; reflexivity | apply rtc_refl].
  - vm_compute. discriminate.
Defined.


(** *** Memory and storage *)

Lemma step_quota w w' : step w w' -> quota w' = quota w.
Proof.
  intros [w0 e pw r | w0 | w0 w0' Hf | w0 rnd].
  - destruct (handleSubmit_cases e pw r w0)
      as [(_ & _ & -> & _) | (_ & _ & ->)]; done.
  - done.
  - unfold fire in Hf. destruct (timers w0) as [| tm rest]; [done |].
    injection Hf as <-. by rewrite run_task_quota.
  - unfold mount, restore, getItem. cbn [localStorage page].
    repeat case_match; done.
Qed.

Lemma mirrored_mount_empty rnd q : mirrored (mount ∅ rnd q).
Proof. left. done. Qed.

Lemma mirrored_step w w' :
  accepting w -> mirrored w -> step w w' -> mirrored w'.
Proof.
  intros Hacc Hm Hstep. revert Hacc Hm.
  destruct Hstep as [w e pw r | w | w w' Hf | w rnd]; intros Hacc Hm.
  - destruct (handleSubmit_cases e pw r w)
      as [(_ & _ & -> & _) | (_ & _ & ->)]; done.
  - left. split; [done |]. unfold logout, getItem. simpl. apply lookup_delete_eq.
  - unfold fire in Hf. destruct (timers w) as [| tm rest]; [done |].
    injection Hf as <-. destruct (task tm) as [e pw r p].
    destruct (Nat.leb_spec 4 (length pw)) as [Hpw | Hpw];
      [| by rewrite run_task_rejects].
    right. eexists. split; [by apply run_task_user |]. unfold getItem.
    match goal with
    | |- context [run_task ?T ?w0] =>
      destruct (run_task_stored e pw r p w0 Hpw (Hacc _ _)) as (-> & _)
    end.
    apply lookup_insert_eq.
  - unfold mirrored, mount, restore, getItem in *. cbn [localStorage page user].
    destruct Hm as [(_ & Hn) | (u & _ & Hs)]; rewrite ?Hn, ?Hs; [by left |].
    replace (ToBoolean (VString (JSON_stringify u))) with true by reflexivity.
    rewrite JSON_facts.JSON_parse_stringify. right. by exists u.
Qed.

Lemma reachable_mirrored_inv w : reachable w -> accepting w -> mirrored w.
Proof.
  induction 1 as [rnd q | w w' _ IH Hstep]; intros Hacc.
  - apply mirrored_mount_empty.
  - assert (Hacc' : accepting w).
    { unfold accepting in *. by rewrite <- (step_quota _ _ Hstep). }
    exact (mirrored_step w w' Hacc' (IH Hacc') Hstep).
Qed.

(** An entry is stored only while an identity is in memory. *)
Lemma stored_user_step w w' :
  session_invariant w ->
  (is_Some (getItem (str "user") w) -> exists u, user w = User_value u) ->
  step w w' ->
  is_Some (getItem (str "user") w') -> exists u, user w' = User_value u.
Proof.
  intros Hinv IH Hstep. revert Hinv IH.
  destruct Hstep as [w e pw r | w | w w' Hf | w rnd]; intros Hinv IH.
  - destruct (handleSubmit_cases e pw r w)
      as [(_ & _ & -> & _) | (_ & _ & ->)]; [exact IH |]. exact IH.
  - unfold logout, getItem. simpl. rewrite lookup_delete_eq. by intros [? ?].
  - unfold fire in Hf. destruct (timers w) as [| tm rest]; [done |].
    injection Hf as <-. destruct (task tm) as [e pw r p].
    destruct (Nat.leb_spec 4 (length pw)) as [Hpw | Hpw].
    + intros _. eexists. by apply run_task_user.
    + rewrite run_task_rejects by done. exact IH.
  - destruct Hinv as (_ & Hs & _).
    unfold mount, restore, getItem in *. cbn [localStorage page].
    destruct Hs as [Hn | (u & Hsome & _)].
    + rewrite Hn. cbn [localStorage page]. rewrite Hn. by intros [? ?].
    + rewrite Hsome.
      replace (ToBoolean (VString (JSON_stringify u))) with true by reflexivity.
      rewrite JSON_facts.JSON_parse_stringify. intros _. by exists u.
Qed.

Lemma reachable_stored_user w :
  reachable w -> is_Some (getItem (str "user") w) ->
  exists u, user w = User_value u.
Proof.
  induction 1 as [rnd q | w w' Hr IH Hstep].
  - by intros [? ?].
  - exact (stored_user_step w w' (Session.reachable_session_invariant w Hr)
             IH Hstep).
Qed.

Lemma reachable_after_login :
  reachable sample_session.
Proof.
  eapply reachable_step; [eapply reachable_step; [apply reachable_start |] |].
  - apply (step_submit _ (str "a@b.com") (str "1234") admin).
  - apply step_fire. reflexivity.
Qed.

Lemma accepting_after_login :
  accepting sample_session.
Proof. intros st v. reflexivity. Qed.

(** A storage that refuses the write leaves memory ahead of storage: the
    identity of the [login] is in memory and no entry is stored. *)
Lemma refused_login_not_mirrored :
  reachable sample_refused_session /\
  ~ mirrored sample_refused_session.
Proof.
  split.
  - eapply reachable_step; [eapply reachable_step; [apply reachable_start |] |].
    + apply (step_submit _ (str "a@b.com") (str "1234") admin).
    + apply step_fire. reflexivity.
  - intros [(Hu & _) | (u & _ & Hs)]; [discriminate Hu | discriminate Hs].
Qed.

(** X7. In every state a browser reaches from an empty storage, an entry
    is stored only while an identity is in memory; and on a page whose
    storage takes every write of the entry, memory and storage agree:
    there is no identity and no entry, or the entry is the serialization
    of the identity in memory. *)
Theorem reachable_mirrored w :
  reachable w ->
  (is_Some (getItem (str "user") w) -> exists u, user w = User_value u) /\
  (accepting w -> mirrored w).
Proof.
  intros Hr. split.
  - induction Hr as [rnd q | w w' Hr IH Hstep].
    + by intros [? ?].
    + exact (stored_user_step w w' (Session.reachable_session_invariant w Hr)
               IH Hstep).
  - induction Hr as [rnd q | w w' Hr IH Hstep]; intros Hacc.
    + apply mirrored_mount_empty.
    + assert (Hacc' : accepting w).
      { unfold accepting in *. by rewrite <- (step_quota _ _ Hstep). }
      exact (mirrored_step w w' Hacc' (IH Hacc') Hstep).
Qed.

Lemma reachable_mirrored_witness :
  (is_Some (getItem (str "user") sample_session) ->
   exists u, user sample_session = User_value u) /\
  mirrored sample_session.
Proof.
  destruct (reachable_mirrored sample_session reachable_after_login)
    as (Hs & Hm).
  split; [exact Hs |]. exact (Hm accepting_after_login).
Defined.

(** X8. In every such state a reload leaves the storage as it is, and on
    a page whose storage takes every write of the entry it leaves the
    identity in memory as it is, too. *)
Theorem reload_keeps_session w rnd :
  reachable w ->
  localStorage (mount (localStorage w) rnd (quota w)) = localStorage w /\
  (accepting w -> user (mount (localStorage w) rnd (quota w)) = user w).
Proof.
  intros Hr. split.
  - destruct (Session.reachable_session_invariant w Hr) as (_ & Hs & _).
    revert Hs. unfold mount, restore, getItem. cbn [localStorage page].
    intros [-> | (u & -> & _)]; [done |].
    replace (ToBoolean (VString (JSON_stringify u))) with true by reflexivity.
    by rewrite JSON_facts.JSON_parse_stringify.
  - intros Hm%reachable_mirrored_inv; [| exact Hr]. revert Hm.
    unfold mirrored, mount, restore, getItem. cbn [localStorage page].
    intros [(-> & ->) | (u & -> & ->)]; [done |].
    replace (ToBoolean (VString (JSON_stringify u))) with true by reflexivity.
    by rewrite JSON_facts.JSON_parse_stringify.
Qed.

Lemma reload_keeps_session_witness :
  localStorage
    (mount (localStorage sample_session) sample_random (quota sample_session))
  = localStorage sample_session /\
  user (mount (localStorage sample_session) sample_random (quota sample_session))
  = user sample_session.
Proof.
  destruct (reload_keeps_session sample_session sample_random reachable_after_login)
    as (Hs & Hu).
  split; [exact Hs |]. exact (Hu accepting_after_login).
Defined.

(** X9. In every such state the login page sends the visitor to the
    dashboard whenever an entry is stored, and on a page whose storage
    takes every write of the entry only then. *)
Theorem redirect_when_stored w :
  reachable w ->
  (is_Some (getItem (str "user") w) ->
   redirect (value w) = [navigate (str "/")]) /\
  (accepting w ->
   redirect (value w)
   = match getItem (str "user") w with
     | Some _ => [navigate (str "/")]
     | None => []
     end).
Proof.
  intros Hr. split.
  - intros (u & Hu)%reachable_stored_user; [| exact Hr].
    unfold redirect, value. cbn [isAuthenticated]. by rewrite Hu.
  - intros [(Hu & Hs) | (u & Hu & Hs)]%reachable_mirrored_inv; [| | exact Hr];
      unfold redirect, value; cbn [isAuthenticated]; by rewrite Hu, Hs.
Qed.

Lemma redirect_when_stored_witness :
  (is_Some (getItem (str "user") sample_session) ->
   redirect (value sample_session) = [navigate (str "/")]) /\
  redirect (value sample_session)
  = match getItem (str "user") sample_session with
    | Some _ => [navigate (str "/")]
    | None => []
    end.
Proof.
  destruct (redirect_when_stored sample_session reachable_after_login)
    as (Hs & Hm).
  split; [exact Hs |]. exact (Hm accepting_after_login).
Defined.

(** *** The identity of a login *)

(** X10. The name of the identity an accepted [login] installs is empty
    exactly when the email is empty or begins with [@]. *)
Theorem login_name_empty e pw r p w :
  (4 <= length pw)%nat ->
  exists u,
    user (run_task (LoginTimeout e pw r p) w) = User_value u /\
    (name u = [] <-> e = [] \/ exists rest, e = 0x40 :: rest).
Proof.
  intros Hpw. exists (new_identity e r w).
  split; [by apply run_task_user |]. cbn [name new_identity].
  destruct (split_head 0x40 e) as (rest & Heq & _ & Hrest).
  split.
  - intros Hn. rewrite Hn in Heq. simpl in Heq. subst rest.
    destruct Hrest as [-> | (rest' & ->)]; eauto.
  - intros [-> | (rest' & ->)]; reflexivity.
Qed.

Lemma login_name_empty_witness :
  exists u,
    user (run_task (LoginTimeout (str "@b.com") (str "1234") investor 0) sample_page)
    = User_value u /\
    (name u = [] <-> str "@b.com" = [] \/ exists rest, str "@b.com" = 0x40 :: rest).
Proof.
  apply (login_name_empty (str "@b.com") (str "1234") investor 0 sample_page).
  vm_compute. lia.
Defined.

(** X11. In every state the store reaches, each queued timer resolves a
    promise that exists and is due at most 500 after the clock, and the
    queue is in due order. *)
Theorem store_queue_well_formed w : store_reachable w -> well_formed w.
Proof.
  induction 1 as [storage rnd | w w' _ IH Hstep].
  - apply well_formed_page.
  - revert IH. destruct Hstep as [w e pw r | w | w w' Hf | w]; intros IH.
    + by apply well_formed_login.
    + by apply well_formed_logout.
    + by apply (well_formed_fire w).
    + by apply well_formed_restore.
Qed.

Lemma store_queue_well_formed_witness :
  well_formed
    (login (str "x@y.com") (str "abc") investor
       (login (str "a@b.com") (str "1234") admin sample_page).2).2.
Proof.
  apply (store_queue_well_formed
           (login (str "x@y.com") (str "abc") investor
              (login (str "a@b.com") (str "1234") admin sample_page).2).2).
  eapply store_reachable_step; [| apply store_login].
  eapply store_reachable_step; [| apply store_login].
  apply (store_reachable_start ∅ sample_random unlimited).
Defined.

End Coverage.

Module Coverage_dashboard.
Import AuthContext Dashboard Dashboard_samples.

Section Page.

Variable number : Type.
Variable number_gt : number -> number -> bool.
Variable number_sub : number -> number -> number.
Variable Math_abs : number -> number.
Variable number_19_9 number_45_5 : number.
Variable number_toString : number -> jsstring.
Variable toFixed : number -> nat -> jsstring.
Variable formatCurrency formatPercentage : number -> jsstring.

Local Abbreviation Dashboard :=
  (Dashboard number number_gt number_sub Math_abs number_19_9 number_45_5
             number_toString toFixed formatCurrency formatPercentage).

(** X12. For a user whose role is ['investor'] the page depends on seven
    fields of the KPI record only: RevPAR, profit margin and percentage,
    average and budgeted occupancy, total revenue and revenue
    achievement. Two records that agree on them give the same page. *)
Theorem investor_page_reads_seven_fields user (k1 k2 : KPIData number) :
  strict_equals (optional_role user) (str "investor") = true ->
  revPAR number k1 = revPAR number k2 ->
  profitMargin number k1 = profitMargin number k2 ->
  profitPercentage number k1 = profitPercentage number k2 ->
  avgOccupancyRate number k1 = avgOccupancyRate number k2 ->
  budgetOccupancyRate number k1 = budgetOccupancyRate number k2 ->
  totalRevenue number k1 = totalRevenue number k2 ->
  revenueAchievement number k1 = revenueAchievement number k2 ->
  Dashboard user k1 = Dashboard user k2.
Proof.
  intros Hrole H1 H2 H3 H4 H5 H6 H7.
  unfold Dashboard.Dashboard. rewrite Hrole. unfold InvestorView.
  by rewrite H1, H2, H3, H4, H5, H6, H7.
Qed.

End Page.

Lemma investor_page_reads_seven_fields_witness :
  Dashboard.Dashboard Z Z.gtb Z.sub Z.abs 20%Z 46%Z sample_format
    (fun n _ => sample_format n) sample_format sample_format
    (User_value {| id := str "k3j9x2m1q"; email := str "a@b.com";
                   name := str "a"; role := investor |})
    (sample_kpi 1%Z)
  = Dashboard.Dashboard Z Z.gtb Z.sub Z.abs 20%Z 46%Z sample_format
      (fun n _ => sample_format n) sample_format sample_format
      (User_value {| id := str "k3j9x2m1q"; email := str "a@b.com";
                     name := str "a"; role := investor |})
      (sample_kpi 2%Z).
Proof.
  apply (investor_page_reads_seven_fields Z Z.gtb Z.sub Z.abs 20%Z 46%Z sample_format
           (fun n _ => sample_format n) sample_format sample_format);
    reflexivity.
Defined.

End Coverage_dashboard.
